(** * fastapi-audio-service: the ingestion pipeline of [src/main.py]

    A shallow embedding of the request handler [process_audio] and of the
    functions it calls: the validation chain ([validate_audio_files_present],
    [validate_timestamp], [validate_audio_file], [validate_payload]), the
    duration computation ([calculate_audio_length]) and the metadata store
    ([store_audio_metadata]).

    Python values are modelled as follows.
    - A [str] is the list of its Unicode code points ([pystr]); a [bytes]
      object is the list of its byte values.
    - A raised exception is the [Raise] case of [result]; [try]/[except]
      is a [match] on it.
    - A [float] is an IEEE-754 binary64 value in the sense of the standard
      library's [SpecFloat] (prec = 53, emax = 1024).
    - The SQLite table is a list of rows in insertion order, carried in an
      explicit world state together with the outcome of the storage engine's
      next insert attempts. *)

From Stdlib Require Import ZArith List Bool String Ascii Lia.
From Stdlib Require Import Floats.SpecFloat.
Import ListNotations.

Local Open Scope Z_scope.

(** ** Python strings, bytes and exceptions *)

Definition pystr := list Z.
Definition pybytes := list Z.

Definition ord (a : ascii) : Z := Z.of_N (N_of_ascii a).

Fixpoint py (s : string) : pystr :=
  match s with
  | EmptyString => []
  | String a rest => ord a :: py rest
  end.

Definition pystr_eqb (a b : pystr) : bool :=
  if list_eq_dec Z.eq_dec a b then true else false.

Inductive exn : Type :=
| ValueError (msg : string)
| BinasciiError (msg : string)
| SqliteError (msg : string)
| ZeroDivisionError (msg : string)
| OverflowError (msg : string)
| HTTPException (status_code : Z) (detail : string)
| ExceptionCustom (status_code : Z) (detail : string).

(** [class ExceptionCustom(HTTPException)]: an [except HTTPException]
    clause catches both. *)
Definition isinstance_HTTPException (e : exn) : bool :=
  match e with
  | HTTPException _ _ | ExceptionCustom _ _ => true
  | _ => false
  end.

Inductive result (A : Type) : Type :=
| Ok (a : A)
| Raise (e : exn).
Arguments Ok {A} a.
Arguments Raise {A} e.

Definition bind {A B} (r : result A) (k : A -> result B) : result B :=
  match r with
  | Ok a => k a
  | Raise e => Raise e
  end.

Notation "x <- c ;; k" := (bind c (fun x => k))
  (at level 61, c at next level, right associativity).

Definition raised {A} (r : result A) : bool :=
  match r with Ok _ => false | Raise _ => true end.

(** ** base64 (the [base64] module over [binascii]) *)

Module Base64.

Definition BASE64_PAD : Z := 61.

(** [table_a2b_base64]: the value of an alphabet character; the entries
    that hold -1 in the C table read as 255 through [unsigned char]. *)
Definition table_a2b_base64 (c : Z) : Z :=
  if (65 <=? c) && (c <=? 90) then c - 65
  else if (97 <=? c) && (c <=? 122) then c - 97 + 26
  else if (48 <=? c) && (c <=? 57) then c - 48 + 52
  else if c =? 43 then 62
  else if c =? 47 then 63
  else if c =? 61 then 0
  else 255.

(** [table_b2a_base64]: the alphabet
    [ABCDEFGHIJKLMNOPQRSTUVWXYZabcdefghijklmnopqrstuvwxyz0123456789+/]. *)
Definition table_b2a_base64 (v : Z) : Z :=
  if v <? 26 then v + 65
  else if v <? 52 then v - 26 + 97
  else if v <? 62 then v - 52 + 48
  else if v =? 62 then 43
  else 47.

(** [_bytes_from_decode_data]: a [str] argument is encoded as ASCII, and a
    code point outside ASCII raises [ValueError]. *)
Definition bytes_from_decode_data (s : pystr) : result pybytes :=
  if forallb (fun c => (0 <=? c) && (c <? 128)) s then Ok s
  else Raise (ValueError "string argument should contain only ASCII characters").

(** The local variables of the decoding loop of [binascii.a2b_base64]. *)
Record a2b_state : Type := mk_a2b {
  quad_pos : Z;
  leftchar : Z;
  pads : Z;
  padding_started : bool;
  bin_data : pybytes
}.

Definition a2b_init : a2b_state := mk_a2b 0 0 0 false [].

Definition uchar (v : Z) : Z := Z.land v 255.

(** What the end of the loop does: an incomplete quad is an error (the
    first message is given without the character count it is formatted
    with). *)
Definition a2b_finish (st : a2b_state) : result pybytes :=
  if quad_pos st =? 0 then Ok (bin_data st)
  else if quad_pos st =? 1 then
    Raise (BinasciiError
      "Invalid base64-encoded string: number of data characters cannot be 1 more than a multiple of 4")
  else Raise (BinasciiError "Incorrect padding").

(** One data character [v] (0..63) enters the current quad. *)
Definition a2b_push (st : a2b_state) (v : Z) : a2b_state :=
  let q := quad_pos st in
  let l := leftchar st in
  let out := bin_data st in
  let ps := padding_started st in
  if q =? 0 then mk_a2b 1 v 0 ps out
  else if q =? 1 then
    mk_a2b 2 (Z.land v 15) 0 ps
      (out ++ [uchar (Z.lor (Z.shiftl l 2) (Z.shiftr v 4))])
  else if q =? 2 then
    mk_a2b 3 (Z.land v 3) 0 ps
      (out ++ [uchar (Z.lor (Z.shiftl l 4) (Z.shiftr v 2))])
  else
    mk_a2b 0 0 0 ps (out ++ [uchar (Z.lor (Z.shiftl l 6) v)]).

(** The [for] loop of [a2b_base64], one character per call. *)
Fixpoint a2b_loop (strict_mode : bool) (data : pybytes) (st : a2b_state)
  : result pybytes :=
  match data with
  | [] => a2b_finish st
  | this_ch :: rest =>
    if this_ch =? BASE64_PAD then
      if 2 <=? quad_pos st then
        if 4 <=? quad_pos st + (pads st + 1) then
          (* a complete pad sequence ends the parse *)
          if strict_mode && negb (Nat.eqb (List.length rest) 0) then
            Raise (BinasciiError "Excess data after padding")
          else Ok (bin_data st)
        else
          a2b_loop strict_mode rest
            (mk_a2b (quad_pos st) (leftchar st) (pads st + 1) true (bin_data st))
      else
        a2b_loop strict_mode rest
          (mk_a2b (quad_pos st) (leftchar st) (pads st) true (bin_data st))
    else
      let v := table_a2b_base64 this_ch in
      if 64 <=? v then
        if strict_mode then Raise (BinasciiError "Only base64 data is allowed")
        else a2b_loop strict_mode rest st
      else if strict_mode && padding_started st then
        Raise (BinasciiError "Discontinuous padding not allowed")
      else a2b_loop strict_mode rest (a2b_push st v)
  end.

Definition a2b_base64 (data : pybytes) (strict_mode : bool) : result pybytes :=
  match data with
  | c :: _ =>
    if strict_mode && (c =? BASE64_PAD) then
      Raise (BinasciiError "Leading padding not allowed")
    else a2b_loop strict_mode data a2b_init
  | [] => a2b_loop strict_mode data a2b_init
  end.

(** [base64.b64decode(s, validate=...)]. *)
Definition b64decode (s : pystr) (validate : bool) : result pybytes :=
  data <- bytes_from_decode_data s ;;
  a2b_base64 data validate.

(** The encoder [binascii.b2a_base64(newline=False)]: [leftchar] is a
    32-bit [unsigned int] that collects the pending bits. *)
Definition uint32 (v : Z) : Z := Z.land v 4294967295.

Definition b2a_emit (leftchar leftbits : Z) : Z :=
  table_b2a_base64 (Z.land (Z.shiftr leftchar (leftbits - 6)) 63).

Fixpoint b2a_loop (bin : pybytes) (leftchar leftbits : Z) : pystr :=
  match bin with
  | [] =>
    if leftbits =? 2 then
      [table_b2a_base64 (Z.shiftl (Z.land leftchar 3) 4); BASE64_PAD; BASE64_PAD]
    else if leftbits =? 4 then
      [table_b2a_base64 (Z.shiftl (Z.land leftchar 15) 2); BASE64_PAD]
    else []
  | b :: rest =>
    let leftchar := uint32 (Z.lor (Z.shiftl leftchar 8) b) in
    let leftbits := leftbits + 8 in
    (* the inner [while leftbits >= 6] runs once or twice *)
    if leftbits <? 12 then
      b2a_emit leftchar leftbits :: b2a_loop rest leftchar (leftbits - 6)
    else
      b2a_emit leftchar leftbits :: b2a_emit leftchar (leftbits - 6)
        :: b2a_loop rest leftchar (leftbits - 12)
  end.

(** [base64.b64encode(b).decode()]. *)
Definition b64encode (b : pybytes) : pystr := b2a_loop b 0 0.

End Base64.

(** ** Regular expressions (the fragment of [re] that the service uses)

    [re.fullmatch] succeeds exactly when the whole string is in the language
    of the pattern.  The anchors [^] and [$] hold at the two ends of the
    string, which is where [fullmatch] puts them, so they translate to the
    empty word.  [\d] on a [str] pattern is the Unicode decimal-digit class,
    a table of the interpreter that is taken as the parameter [is_decimal]. *)

Module Re.

Inductive regex : Type :=
| Never
| Eps
| Lit (c : Z)
| Digit
| Cat (r1 r2 : regex)
| Alt (r1 r2 : regex)
| Star (r : regex).

(** [r{n}] *)
Fixpoint Rep (n : nat) (r : regex) : regex :=
  match n with
  | O => Eps
  | S k => Cat r (Rep k r)
  end.

(** [r+] and [(?:r)?] *)
Definition Plus (r : regex) : regex := Cat r (Star r).
Definition Opt (r : regex) : regex := Alt Eps r.

Fixpoint nullable (r : regex) : bool :=
  match r with
  | Never | Lit _ | Digit => false
  | Eps | Star _ => true
  | Cat r1 r2 => nullable r1 && nullable r2
  | Alt r1 r2 => nullable r1 || nullable r2
  end.

Section Matching.

Variable is_decimal : Z -> bool.

(** The derivative of [r] by the character [c]. *)
Fixpoint deriv (c : Z) (r : regex) : regex :=
  match r with
  | Never | Eps => Never
  | Lit d => if c =? d then Eps else Never
  | Digit => if is_decimal c then Eps else Never
  | Cat r1 r2 =>
    if nullable r1 then Alt (Cat (deriv c r1) r2) (deriv c r2)
    else Cat (deriv c r1) r2
  | Alt r1 r2 => Alt (deriv c r1) (deriv c r2)
  | Star r1 => Cat (deriv c r1) (Star r1)
  end.

Fixpoint fullmatch (r : regex) (s : pystr) : bool :=
  match s with
  | [] => nullable r
  | c :: rest => fullmatch (deriv c r) rest
  end.

(** The language of a pattern. *)
Inductive Matches : regex -> pystr -> Prop :=
| MEps : Matches Eps []
| MLit c : Matches (Lit c) [c]
| MDigit c : is_decimal c = true -> Matches Digit [c]
| MCat r1 r2 s1 s2 :
    Matches r1 s1 -> Matches r2 s2 -> Matches (Cat r1 r2) (s1 ++ s2)
| MAltL r1 r2 s : Matches r1 s -> Matches (Alt r1 r2) s
| MAltR r1 r2 s : Matches r2 s -> Matches (Alt r1 r2) s
| MStarNil r : Matches (Star r) []
| MStarApp r s1 s2 :
    Matches r s1 -> Matches (Star r) s2 -> Matches (Star r) (s1 ++ s2).

End Matching.

(** [timestamp_pattern = r"^\d{4}-\d{2}-\d{2}T\d{2}:\d{2}:\d{2}(?:\.\d+)?Z$"] *)
Definition timestamp_pattern : regex :=
  Cat Eps
  (Cat (Rep 4 Digit) (Cat (Lit 45)
  (Cat (Rep 2 Digit) (Cat (Lit 45)
  (Cat (Rep 2 Digit) (Cat (Lit 84)
  (Cat (Rep 2 Digit) (Cat (Lit 58)
  (Cat (Rep 2 Digit) (Cat (Lit 58)
  (Cat (Rep 2 Digit)
  (Cat (Opt (Cat (Lit 46) (Plus Digit)))
  (Cat (Lit 90) Eps))))))))))))).

End Re.

(** The decimal digits of ASCII, which every version of the Unicode
    decimal-digit class contains. *)
Definition ascii_decimal (c : Z) : bool := (48 <=? c) && (c <=? 57).

(** ** Python floats and the two float operations of the service *)

Module PyFloat.

Definition prec : Z := 53.
Definition emax : Z := 1024.

Definition pyfloat := spec_float.

(** The binary64 value nearest to [a / b] for integers [a] and [b <> 0]
    (ties to even), with the sign of the quotient. *)
Definition nearest_quotient (a b : Z) : pyfloat :=
  let negative := xorb (a <? 0) (b <? 0) in
  if a =? 0 then S754_zero negative
  else
    let '(mz, ez, lz) := SFdiv_core_binary prec emax (Z.abs a) 0 (Z.abs b) 0 in
    binary_round_aux prec emax negative mz ez lz.

(** [a / b] on two [int]s: true division is correctly rounded. *)
Definition int_truediv (a b : Z) : result pyfloat :=
  if b =? 0 then Raise (ZeroDivisionError "division by zero")
  else
    match nearest_quotient a b with
    | S754_infinity _ =>
      Raise (OverflowError "integer division result too large for a float")
    | q => Ok q
    end.

(** [n / d] rounded to the nearest integer, ties to the even one
    ([0 <= n], [0 < d]). *)
Definition div_half_even (n d : Z) : Z :=
  let q := n / d in
  let r := n mod d in
  if 2 * r <? d then q
  else if d <? 2 * r then q + 1
  else if Z.even q then q else q + 1.

(** [round(x, ndigits)] for [0 <= ndigits]: the exact value of [x] is
    rounded to [ndigits] decimal places, ties to even, and the decimal
    result is converted back to the nearest float.  Zeros, infinities and
    NaN round to themselves. *)
Definition round (x : pyfloat) (ndigits : Z) : pyfloat :=
  match x with
  | S754_finite s m e =>
    let scale := 10 ^ ndigits in
    let k :=
      if 0 <=? e then Z.pos m * 2 ^ e * scale
      else div_half_even (Z.pos m * scale) (2 ^ (- e)) in
    if k =? 0 then S754_zero s
    else nearest_quotient (if s then - k else k) scale
  | _ => x
  end.

Definition zero : pyfloat := S754_zero false.

End PyFloat.

(** ** [numpy.frombuffer(buffer, dtype=numpy.int16)] *)

Module Numpy.

Definition int16 (u : Z) : Z := if u <? 32768 then u else u - 65536.

(** Consecutive byte pairs read as little-endian signed 16-bit samples. *)
Fixpoint int16_items (buf : pybytes) : list Z :=
  match buf with
  | lo :: hi :: rest => int16 (lo + 256 * hi) :: int16_items rest
  | _ => []
  end.

(** With the default [count=-1] the buffer must hold a whole number of
    items; otherwise [frombuffer] raises [ValueError]. *)
Definition frombuffer_int16 (buf : pybytes) : result (list Z) :=
  if Z.of_nat (List.length buf) mod 2 =? 0 then Ok (int16_items buf)
  else Raise (ValueError "buffer size must be a multiple of element size").

End Numpy.

(** ** The service: data model *)

Import PyFloat.

(** The pydantic models [AudioFile] and [AudioPayload]. *)
Record AudioFile : Type := mkAudioFile {
  file_name : pystr;
  encoded_audio : pystr
}.

Record AudioPayload : Type := mkAudioPayload {
  session_id : pystr;
  timestamp : pystr;
  audio_files : list AudioFile
}.

(** A row of the table [audio_metadata]. *)
Record MetadataRecord : Type := mkRecord {
  row_id : Z;
  row_session_id : pystr;
  row_timestamp : pystr;
  row_file_name : pystr;
  row_length_seconds : pyfloat
}.

(** The database file and its engine.  [audio_metadata] holds the rows in
    insertion order, [sqlite_sequence] the largest row id the
    [AUTOINCREMENT] column has handed out, and [faults] what the engine
    does on the coming insert attempts, one element per attempt ([true]:
    connecting, inserting or committing raises); after the list is used up
    every attempt succeeds. *)
Record World : Type := mkWorld {
  audio_metadata : list MetadataRecord;
  sqlite_sequence : Z;
  faults : list bool
}.

(** An entry of [processed_files], and the [dict] the handler returns. *)
Record ProcessedFile : Type := mkProcessed {
  pf_file_name : pystr;
  pf_length_seconds : pyfloat
}.

Inductive ResponseDict : Type :=
| ErrorDict (status message : string)
| SuccessDict (status : string) (processed_files : list ProcessedFile).

(** What the client receives: the returned [dict] with status 200, or the
    [{"detail": ...}] body that the framework's default handler builds from
    a raised [HTTPException], with that exception's status code (the tests
    read [response.json()["detail"]]; [exception_400_handler] of
    [exceptions.py] is not registered on the app). *)
Inductive HttpBody : Type :=
| JsonDict (d : ResponseDict)
| JsonDetail (detail : string).

Record HttpResponse : Type := mkResponse {
  status_code : Z;
  body : HttpBody
}.

(** Python's [True] and [None], the two values [validate_audio_file]
    can return, and their truth value. *)
Inductive pyobj : Type :=
| PyBool (b : bool)
| PyNone.

Definition truthy (v : pyobj) : bool :=
  match v with
  | PyBool b => b
  | PyNone => false
  end.

(** Computations that read and write the database and may raise. *)
Definition M (A : Type) : Type := World -> World * result A.

Definition ret {A} (a : A) : M A := fun w => (w, Ok a).

Definition lift {A} (r : result A) : M A := fun w => (w, r).

Definition mbind {A B} (c : M A) (k : A -> M B) : M B :=
  fun w =>
    match c w with
    | (w', Ok a) => k a w'
    | (w', Raise e) => (w', Raise e)
    end.

Notation "x <~ c ;; k" := (mbind c (fun x => k))
  (at level 61, c at next level, right associativity).

(** ** The service: functions of [main.py] *)

Definition max_rowid (rows : list MetadataRecord) : Z :=
  fold_right Z.max 0 (map row_id rows).

(** The row id an [INTEGER PRIMARY KEY AUTOINCREMENT] column assigns: one
    more than the largest id that is or ever was in the table. *)
Definition next_rowid (w : World) : Z :=
  Z.max (sqlite_sequence w) (max_rowid (audio_metadata w)) + 1.

(** [calculate_audio_length]: [len(audio_array) / sample_rate]. *)
Definition calculate_audio_length (audio_array : list Z) (sample_rate : Z)
  : result pyfloat :=
  int_truediv (Z.of_nat (List.length audio_array)) sample_rate.

(** [store_audio_metadata]: one [INSERT] in a transaction of its own; any
    exception of the engine is turned into [HTTPException(500)], and the
    failed transaction leaves the table as it was. *)
Definition store_audio_metadata (session_id timestamp file_name : pystr)
    (length_seconds : pyfloat) : M unit :=
  fun w =>
    match faults w with
    | true :: later =>
      (mkWorld (audio_metadata w) (sqlite_sequence w) later,
       Raise (HTTPException 500 "Failed to store audio metadata"))
    | _ =>
      let new_id := next_rowid w in
      (mkWorld
         (audio_metadata w ++
            [mkRecord new_id session_id timestamp file_name length_seconds])
         new_id (tl (faults w)),
       Ok tt)
    end.

Definition validate_audio_files_present (audio_files : list AudioFile)
  : result pyobj :=
  match audio_files with
  | [] => Raise (ExceptionCustom 400 "No audio files provided!")
  | _ :: _ => Ok (PyBool true)
  end.

(** The body of the [try] in [validate_audio_file]: does the strict decode
    of the text re-encode to the same text? *)
Definition reencodes_to_itself (encoded : pystr) : result bool :=
  decoded <- Base64.b64decode encoded true ;;
  Ok (pystr_eqb (Base64.b64encode decoded) encoded).

(** [validate_audio_file]: returns [True] at the first file that
    re-encodes to itself, raises at the first file whose decode raises,
    goes on to the next file otherwise, and returns [None] when the loop
    runs out. *)
Fixpoint validate_audio_file (audio_files : list AudioFile) : result pyobj :=
  match audio_files with
  | [] => Ok PyNone
  | audio_file :: rest =>
    match reencodes_to_itself (encoded_audio audio_file) with
    | Ok true => Ok (PyBool true)
    | Ok false => validate_audio_file rest
    | Raise _ => Raise (ExceptionCustom 400 "Invalid base64 encoding file!")
    end
  end.

Section Service.

(** The decimal-digit class of the interpreter's [re] module. *)
Variable is_decimal : Z -> bool.

Definition validate_timestamp (timestamp : pystr) : result pyobj :=
  if negb (Re.fullmatch is_decimal Re.timestamp_pattern timestamp) then
    Raise (ExceptionCustom 400 "Invalid timestamp format!")
  else Ok (PyBool true).

(** [validate_payload]: the three checks joined by [and], which evaluates
    left to right and stops at the first falsy value. *)
Definition validate_payload (payload : AudioPayload) : result bool :=
  a <- validate_audio_files_present (audio_files payload) ;;
  if truthy a then
    b <- validate_timestamp (timestamp payload) ;;
    if truthy b then
      c <- validate_audio_file (audio_files payload) ;;
      if truthy c then Ok true else Ok false
    else Ok false
  else Ok false.

(** The body of the [try] in the loop of [process_audio]. *)
Definition process_file (sample_rate : Z) (payload : AudioPayload)
    (audio_file : AudioFile) : M ProcessedFile :=
  audio_array <~ lift (decoded <- Base64.b64decode (encoded_audio audio_file) false ;;
                       Numpy.frombuffer_int16 decoded) ;;
  length_seconds <~ lift (calculate_audio_length audio_array sample_rate) ;;
  _ <~ store_audio_metadata (session_id payload) (timestamp payload)
         (file_name audio_file) length_seconds ;;
  ret (mkProcessed (file_name audio_file) (round length_seconds 2)).

(** The [for] loop of [process_audio]: both [except] clauses log and
    [continue], so a raising file leaves [processed_files] as it is. *)
Fixpoint process_files (sample_rate : Z) (payload : AudioPayload)
    (files : list AudioFile) (processed_files : list ProcessedFile)
    (w : World) : World * list ProcessedFile :=
  match files with
  | [] => (w, processed_files)
  | audio_file :: rest =>
    match process_file sample_rate payload audio_file w with
    | (w', Ok entry) =>
      process_files sample_rate payload rest (processed_files ++ [entry]) w'
    | (w', Raise _) =>
      process_files sample_rate payload rest processed_files w'
    end
  end.

Definition process_audio (payload : AudioPayload) : M ResponseDict :=
  fun w =>
    let sample_rate := 4000 in
    let processed_files := [] in
    match validate_payload payload with
    | Raise e => (w, Raise e)
    | Ok false =>
      (w, Ok (ErrorDict "error" "Invalid audio file metadata or payload."))
    | Ok true =>
      let '(w', processed_files) :=
        process_files sample_rate payload (audio_files payload) processed_files w in
      (w', Ok (SuccessDict "success" processed_files))
    end.

(** [POST /process-audio]: the route with the framework's handling of
    what the handler returns or raises. *)
Definition post_process_audio (payload : AudioPayload) (w : World)
  : World * HttpResponse :=
  match process_audio payload w with
  | (w', Ok d) => (w', mkResponse 200 (JsonDict d))
  | (w', Raise (HTTPException code detail))
  | (w', Raise (ExceptionCustom code detail)) =>
    (w', mkResponse code (JsonDetail detail))
  | (w', Raise _) => (w', mkResponse 500 (JsonDetail "Internal Server Error"))
  end.

End Service.

(** ** The timestamp grammar in the specification's words

    The properties below compare it with the pattern of
    [validate_timestamp]. *)

Module TimestampSpec.
Section Grammar.

Variable is_decimal : Z -> bool.

(** [n] decimal digits. *)
Definition digits (n : nat) (s : pystr) : Prop :=
  List.length s = n /\ Forall (fun c => is_decimal c = true) s.

(** Nothing, or a dot followed by at least one digit. *)
Definition optional_fraction (s : pystr) : Prop :=
  s = [] \/
  exists ds, ds <> [] /\ Forall (fun c => is_decimal c = true) ds /\ s = 46 :: ds.

(** The grammar as the specification words it:
    [YYYY-MM-DDTHH:MM:SS[.fraction]Z]. *)
Definition TimestampGrammar (ts : pystr) : Prop :=
  exists YYYY MM DD hh mm ss fraction,
    digits 4 YYYY /\ digits 2 MM /\ digits 2 DD /\
    digits 2 hh /\ digits 2 mm /\ digits 2 ss /\
    optional_fraction fraction /\
    ts = YYYY ++ py "-" ++ MM ++ py "-" ++ DD ++ py "T" ++
         hh ++ py ":" ++ mm ++ py ":" ++ ss ++ fraction ++ py "Z".

End Grammar.
End TimestampSpec.

(** ** Notions the statements use *)

(** The part of [process_file] that precedes the store: decode the text,
    reinterpret the bytes as samples, measure them. *)
Definition measure (sample_rate : Z) (audio_file : AudioFile) : result pyfloat :=
  decoded <- Base64.b64decode (encoded_audio audio_file) false ;;
  audio_array <- Numpy.frombuffer_int16 decoded ;;
  calculate_audio_length audio_array sample_rate.

(** The files of a batch in input order, each with what its turn of the
    loop produced, the database being handed from one turn to the next. *)
Fixpoint attempts (payload : AudioPayload) (files : list AudioFile) (w : World)
  : list (AudioFile * result ProcessedFile) :=
  match files with
  | [] => []
  | audio_file :: rest =>
    let '(w', r) := process_file 4000 payload audio_file w in
    (audio_file, r) :: attempts payload rest w'
  end.

(** The database after those turns. *)
Fixpoint world_after (payload : AudioPayload) (files : list AudioFile) (w : World)
  : World :=
  match files with
  | [] => w
  | audio_file :: rest =>
    world_after payload rest (fst (process_file 4000 payload audio_file w))
  end.

(** The entries of the turns that did not raise. *)
Definition successes (turns : list (AudioFile * result ProcessedFile))
  : list ProcessedFile :=
  flat_map (fun turn => match snd turn with Ok entry => [entry] | Raise _ => [] end)
           turns.

(** A row without its engine-assigned id. *)
Definition row_fields (r : MetadataRecord) : pystr * pystr * pystr * pyfloat :=
  (row_session_id r, row_timestamp r, row_file_name r, row_length_seconds r).

(** What a turn can be: the decode step raised and so did the turn; or
    the decode step gave a length and the insert raised, which the turn
    passes on; or both went through and the turn's entry is the file's name
    with the rounded length. *)
Definition turn_sound (turn : AudioFile * result ProcessedFile) : Prop :=
  match measure 4000 (fst turn), snd turn with
  | Raise _, Raise _ => True
  | Raise _, Ok _ => False
  | Ok _, Raise e => e = HTTPException 500 "Failed to store audio metadata"
  | Ok len, Ok entry => entry = mkProcessed (file_name (fst turn)) (round len 2)
  end.

(** What the claim says the loop does, file by file in input order, in
    terms of the decode step ([measure]) and of [store_audio_metadata]
    alone: a file whose decode step raises is skipped and the database is
    not touched; a file whose store step raises is skipped and the database
    is what the failed store left; a file whose two steps go through
    contributes exactly one entry, its name with the rounded length, and
    the database is what the store made of it.  [LoopOutcome payload w files
    w' entries]: from database [w] the files leave database [w'] and
    [processed_files = entries]. *)
Inductive LoopOutcome (payload : AudioPayload)
  : World -> list AudioFile -> World -> list ProcessedFile -> Prop :=
| Loop_done w :
    LoopOutcome payload w [] w []
| Loop_decode_failed w audio_file rest e w' entries :
    measure 4000 audio_file = Raise e ->
    LoopOutcome payload w rest w' entries ->
    LoopOutcome payload w (audio_file :: rest) w' entries
| Loop_store_failed w audio_file rest len w1 e w' entries :
    measure 4000 audio_file = Ok len ->
    store_audio_metadata (session_id payload) (timestamp payload)
      (file_name audio_file) len w = (w1, Raise e) ->
    LoopOutcome payload w1 rest w' entries ->
    LoopOutcome payload w (audio_file :: rest) w' entries
| Loop_stored w audio_file rest len w1 w' entries :
    measure 4000 audio_file = Ok len ->
    store_audio_metadata (session_id payload) (timestamp payload)
      (file_name audio_file) len w = (w1, Ok tt) ->
    LoopOutcome payload w1 rest w' entries ->
    LoopOutcome payload w (audio_file :: rest) w'
      (mkProcessed (file_name audio_file) (round len 2) :: entries).

(** The turns that did not raise. *)
Definition succeeded (turns : list (AudioFile * result ProcessedFile))
  : list (AudioFile * result ProcessedFile) :=
  filter (fun turn => negb (raised (snd turn))) turns.

(** [row] is the record of the successful turn [turn] of a batch: the
    session id and timestamp of the request, the file's name, its unrounded
    length; and the turn's entry carries the name and the rounded length. *)
Definition row_of_turn (payload : AudioPayload) (row : MetadataRecord)
    (turn : AudioFile * result ProcessedFile) : Prop :=
  row_session_id row = session_id payload /\
  row_timestamp row = timestamp payload /\
  row_file_name row = file_name (fst turn) /\
  measure 4000 (fst turn) = Ok (row_length_seconds row) /\
  snd turn = Ok (mkProcessed (file_name (fst turn)) (round (row_length_seconds row) 2)).

(** The rows, ids aside, that a batch adds when no insert fails. *)
Definition expected_rows (payload : AudioPayload) (files : list AudioFile)
  : list (pystr * pystr * pystr * pyfloat) :=
  flat_map
    (fun audio_file =>
       match measure 4000 audio_file with
       | Ok len => [(session_id payload, timestamp payload, file_name audio_file, len)]
       | Raise _ => []
       end)
    files.

(** The three failure reasons of the validator. *)
Definition failure_reasons : list string :=
  ["No audio files provided!"%string;
   "Invalid timestamp format!"%string;
   "Invalid base64 encoding file!"%string].

(** A batch fails validation when [validate_payload] raises or returns
    [False]. *)
Definition fails_validation (is_decimal : Z -> bool) (payload : AudioPayload)
  : Prop :=
  validate_payload is_decimal payload <> Ok true.

(** ** Sample inputs *)

Definition sample_timestamp : pystr := py "2025-01-02T12:00:00Z".

Definition empty_db : World := mkWorld [] 0 [].

Definition sample_batch (files : list AudioFile) : AudioPayload :=
  mkAudioPayload (py "test-session") sample_timestamp files.

(** [b"ABCD"], two samples, in canonical base64. *)
Definition two_sample_file : AudioFile := mkAudioFile (py "a.wav") (py "QUJDRA==").

(** [b"A"], a single byte, in canonical base64. *)
Definition one_byte_file : AudioFile := mkAudioFile (py "odd.wav") (py "QQ==").

(** Text that strict decoding accepts (as [b"A"]) but that is not what
    [b"A"] encodes to: the last character carries non-zero padding bits. *)
Definition noncanonical_file : AudioFile := mkAudioFile (py "nc.wav") (py "QR==").

(** Text outside the base64 alphabet. *)
Definition garbage_file : AudioFile := mkAudioFile (py "bad.wav") (py "!!!").


(** A batch whose timestamp lacks the trailing [Z]. *)
Definition unzoned_batch : AudioPayload :=
  mkAudioPayload (py "test-session") (py "2025-01-02T12:00:00") [two_sample_file].

(** A database whose next insert would fail. *)
Definition failing_db : World := mkWorld [] 7 [true].

(** [b"EFGH"], two other samples, under another name. *)
Definition other_file : AudioFile := mkAudioFile (py "b.wav") (py "RUZHSA==").

(** The batch of [two_sample_file] under another session id and file name. *)
Definition renamed_batch : AudioPayload :=
  mkAudioPayload (py "other-session") sample_timestamp
    [mkAudioFile (py "renamed.wav") (py "QUJDRA==")].

(** What a test submits: a name and raw bytes. *)
Definition sample_item : pystr * pybytes := (py "a.wav", [65; 66; 67; 68]).

(** A batch whose first insert will fail on [failing_db] and whose second
    file has an odd number of bytes. *)
Definition partly_failing_batch : AudioPayload :=
  sample_batch [two_sample_file; one_byte_file; other_file].

Definition garbage_batch : AudioPayload := sample_batch [garbage_file].

Definition mixed_batch : AudioPayload :=
  sample_batch [two_sample_file; one_byte_file].

Definition repeated_batch : AudioPayload :=
  sample_batch [two_sample_file; two_sample_file].

(** ** Base64 by groups of three bytes

    The encoding as RFC 4648 describes it, three bytes to four characters,
    with which the streaming encoder above is compared. *)

Module Base64Spec.

Definition is_byte (b : Z) : Prop := 0 <= b < 256.

Definition T := Base64.table_b2a_base64.

Fixpoint b64_groups (bs : pybytes) : pystr :=
  match bs with
  | [] => []
  | [b1] => [T (b1 / 4); T (b1 mod 4 * 16); 61; 61]
  | [b1; b2] =>
    [T (b1 / 4); T (b1 mod 4 * 16 + b2 / 16); T (b2 mod 16 * 4); 61]
  | b1 :: b2 :: b3 :: rest =>
    T (b1 / 4) :: T (b1 mod 4 * 16 + b2 / 16) ::
    T (b2 mod 16 * 4 + b3 / 64) :: T (b3 mod 64) :: b64_groups rest
  end.

(** The 64 characters of the alphabet: [A-Z], [a-z], [0-9], [+], [/]. *)
Definition in_alphabet (c : Z) : bool :=
  ((65 <=? c) && (c <=? 90)) || ((97 <=? c) && (c <=? 122)) ||
  ((48 <=? c) && (c <=? 57)) || (c =? 43) || (c =? 47).

End Base64Spec.

(** ** What the tests submit

    [test_main.py] builds each file as
    [AudioFile(file_name=..., encoded_audio=base64.b64encode(raw))] from raw
    16-bit PCM bytes. *)

Definition upload (item : pystr * pybytes) : AudioFile :=
  mkAudioFile (fst item) (Base64.b64encode (snd item)).

(** Raw PCM: bytes, two per sample, fewer than 2^64 of them. *)
Definition pcm (raw : pybytes) : Prop :=
  Forall Base64Spec.is_byte raw /\
  Z.even (Z.of_nat (List.length raw)) = true /\
  Z.of_nat (List.length raw) < 2 ^ 64.

(** The length in seconds of raw PCM at 4000 Hz. *)
Definition duration (raw : pybytes) : pyfloat :=
  nearest_quotient (Z.of_nat (List.length raw) / 2) 4000.

Definition entry_of (item : pystr * pybytes) : ProcessedFile :=
  mkProcessed (fst item) (round (duration (snd item)) 2).

Definition fields_of (payload : AudioPayload) (item : pystr * pybytes)
  : pystr * pystr * pystr * pyfloat :=
  (session_id payload, timestamp payload, fst item, duration (snd item)).

(** [entry] is what the response says about the stored [row]. *)
Definition stored_as (payload : AudioPayload) (row : MetadataRecord)
    (entry : ProcessedFile) : Prop :=
  row_session_id row = session_id payload /\
  row_timestamp row = timestamp payload /\
  row_file_name row = pf_file_name entry /\
  pf_length_seconds entry = round (row_length_seconds row) 2.

(** The entries a batch gets when no insert fails. *)
Definition expected_entries (files : list AudioFile) : list ProcessedFile :=
  flat_map
    (fun audio_file =>
       match measure 4000 audio_file with
       | Ok len => [mkProcessed (file_name audio_file) (round len 2)]
       | Raise _ => []
       end)
    files.

(** * Properties *)

(** ** The matcher decides the language of a pattern *)

Module ReFacts.
Import Re.

Section Language.

Variable is_decimal : Z -> bool.

Local Abbreviation Matches := (Re.Matches is_decimal).
Local Abbreviation deriv := (Re.deriv is_decimal).
Local Abbreviation fullmatch := (Re.fullmatch is_decimal).

Lemma Matches_Eps_inv s : Matches Eps s -> s = [].
Proof. inversion 1; reflexivity. Qed.

Lemma Matches_Lit_inv c s : Matches (Lit c) s -> s = [c].
Proof. inversion 1; reflexivity. Qed.

Lemma Matches_Digit_inv s :
  Matches Digit s -> exists c, s = [c] /\ is_decimal c = true.
Proof. inversion 1; subst; eauto. Qed.

Lemma Matches_Cat_inv r1 r2 s :
  Matches (Cat r1 r2) s ->
  exists s1 s2, s = s1 ++ s2 /\ Matches r1 s1 /\ Matches r2 s2.
Proof. inversion 1; subst; eauto. Qed.

Lemma Matches_Alt_inv r1 r2 s :
  Matches (Alt r1 r2) s -> Matches r1 s \/ Matches r2 s.
Proof. inversion 1; subst; auto. Qed.

Lemma nullable_Matches r : nullable r = true <-> Matches r [].
Proof.
  induction r; simpl.
  - split; [discriminate | inversion 1].
  - split; [constructor | reflexivity].
  - split; [discriminate | inversion 1].
  - split; [discriminate | inversion 1].
  - rewrite andb_true_iff, IHr1, IHr2. split.
    + intros [H1 H2]. apply (MCat is_decimal r1 r2 [] [] H1 H2).
    + intros H. apply Matches_Cat_inv in H.
      destruct H as (s1 & s2 & E & H1 & H2).
      symmetry in E. apply app_eq_nil in E. destruct E; subst. auto.
  - rewrite orb_true_iff, IHr1, IHr2. split.
    + intros [H | H]; [apply MAltL | apply MAltR]; exact H.
    + apply Matches_Alt_inv.
  - split; [constructor | reflexivity].
Qed.

(** A non-empty word of [r*] starts with a non-empty word of [r]. *)
Lemma Matches_Star_cons r c s :
  Matches (Star r) (c :: s) ->
  exists s1 s2, s = s1 ++ s2 /\ Matches r (c :: s1) /\ Matches (Star r) s2.
Proof.
  intros H. remember (Star r) as r' eqn:Er. remember (c :: s) as cs eqn:Es.
  revert s Es.
  induction H; intros s' Es; try discriminate.
  injection Er as ->.
  destruct s1 as [|c1 s1].
  - simpl in Es. apply IHMatches2; auto.
  - simpl in Es. injection Es as -> <-. eauto.
Qed.

Lemma deriv_Matches r : forall c s, Matches (deriv c r) s <-> Matches r (c :: s).
Proof.
  induction r; intros a s; simpl.
  - split; inversion 1.
  - split; inversion 1.
  - destruct (Z.eqb_spec a c) as [-> | Hne].
    + split; intros H.
      * apply Matches_Eps_inv in H. subst. constructor.
      * apply Matches_Lit_inv in H. injection H as ->. constructor.
    + split; intros H; [inversion H |].
      apply Matches_Lit_inv in H. congruence.
  - destruct (is_decimal a) eqn:Ha.
    + split; intros H.
      * apply Matches_Eps_inv in H. subst. constructor. exact Ha.
      * apply Matches_Digit_inv in H. destruct H as (c & E & _).
        injection E as _ ->. constructor.
    + split; intros H; [inversion H |].
      apply Matches_Digit_inv in H. destruct H as (c & E & Hc). congruence.
  - destruct (nullable r1) eqn:Hn.
    + split; intros H.
      * apply Matches_Alt_inv in H. destruct H as [H | H].
        -- apply Matches_Cat_inv in H. destruct H as (s1 & s2 & -> & H1 & H2).
           apply IHr1 in H1. apply (MCat is_decimal r1 r2 (a :: s1) s2 H1 H2).
        -- apply IHr2 in H. apply nullable_Matches in Hn.
           apply (MCat is_decimal r1 r2 [] (a :: s) Hn H).
      * apply Matches_Cat_inv in H. destruct H as (s1 & s2 & E & H1 & H2).
        destruct s1 as [|c1 s1]; simpl in E.
        -- subst s2. apply MAltR. apply IHr2. exact H2.
        -- injection E as <- ->. apply MAltL. constructor; [apply IHr1 |]; auto.
    + split; intros H.
      * apply Matches_Cat_inv in H. destruct H as (s1 & s2 & -> & H1 & H2).
        apply IHr1 in H1. apply (MCat is_decimal r1 r2 (a :: s1) s2 H1 H2).
      * apply Matches_Cat_inv in H. destruct H as (s1 & s2 & E & H1 & H2).
        destruct s1 as [|c1 s1]; simpl in E.
        -- apply nullable_Matches in H1. congruence.
        -- injection E as <- ->. constructor; [apply IHr1 |]; auto.
  - split; intros H.
    + apply Matches_Alt_inv in H.
      destruct H as [H | H]; [apply MAltL, IHr1 | apply MAltR, IHr2]; exact H.
    + apply Matches_Alt_inv in H.
      destruct H as [H | H]; [apply MAltL, IHr1 | apply MAltR, IHr2]; exact H.
  - split; intros H.
    + apply Matches_Cat_inv in H. destruct H as (s1 & s2 & -> & H1 & H2).
      apply IHr in H1. apply (MStarApp is_decimal r (a :: s1) s2 H1 H2).
    + apply Matches_Star_cons in H. destruct H as (s1 & s2 & -> & H1 & H2).
      constructor; [apply IHr |]; auto.
Qed.

Lemma fullmatch_Matches s : forall r, fullmatch r s = true <-> Matches r s.
Proof.
  induction s as [|c s IH]; intros r; simpl.
  - apply nullable_Matches.
  - rewrite IH. apply deriv_Matches.
Qed.

End Language.
End ReFacts.

(** ** The timestamp grammar *)

Module Timestamp.
Import Re ReFacts TimestampSpec.

Section Grammar.

Variable is_decimal : Z -> bool.

Local Abbreviation Matches := (Re.Matches is_decimal).
Local Abbreviation digits := (TimestampSpec.digits is_decimal).
Local Abbreviation optional_fraction := (TimestampSpec.optional_fraction is_decimal).
Local Abbreviation TimestampGrammar := (TimestampSpec.TimestampGrammar is_decimal).

Lemma Matches_Rep_Digit n : forall s, Matches (Rep n Digit) s <-> digits n s.
Proof.
  unfold digits. induction n as [|n IH]; intros s; simpl.
  - split.
    + intros H. apply Matches_Eps_inv in H. subst. auto.
    + intros [H _]. apply length_zero_iff_nil in H. subst. constructor.
  - split.
    + intros H. apply Matches_Cat_inv in H.
      destruct H as (s1 & s2 & -> & H1 & H2).
      apply Matches_Digit_inv in H1. destruct H1 as (c & -> & Hc).
      apply IH in H2. destruct H2 as [L F]. simpl. split; [congruence |].
      constructor; assumption.
    + intros [L F]. destruct s as [|c s]; [discriminate |].
      inversion F; subst. simpl in L. injection L as L.
      apply (MCat is_decimal Digit (Rep n Digit) [c] s).
      * constructor. assumption.
      * apply IH. auto.
Qed.

Lemma Matches_Star_Digit s :
  Matches (Star Digit) s <-> Forall (fun c => is_decimal c = true) s.
Proof.
  split.
  - intros H. remember (Star Digit) as r eqn:Er.
    induction H; try discriminate.
    + constructor.
    + injection Er as ->. apply Matches_Digit_inv in H.
      destruct H as (c & -> & Hc). simpl. constructor; auto.
  - induction 1 as [|c s Hc _ IH].
    + constructor.
    + apply (MStarApp is_decimal Digit [c] s); [constructor; exact Hc | exact IH].
Qed.

Lemma Matches_fraction s :
  Matches (Opt (Cat (Lit 46) (Plus Digit))) s <-> optional_fraction s.
Proof.
  unfold optional_fraction, Opt, Plus. split.
  - intros H. apply Matches_Alt_inv in H. destruct H as [H | H].
    + left. apply (Matches_Eps_inv is_decimal). exact H.
    + right. apply Matches_Cat_inv in H. destruct H as (s1 & s2 & -> & H1 & H2).
      apply Matches_Lit_inv in H1. subst s1.
      apply Matches_Cat_inv in H2. destruct H2 as (d & ds & -> & H2 & H3).
      apply Matches_Digit_inv in H2. destruct H2 as (c & -> & Hc).
      apply Matches_Star_Digit in H3.
      exists (c :: ds). repeat split; [discriminate | constructor; auto].
  - intros [-> | (ds & Hne & F & ->)].
    + apply MAltL. constructor.
    + apply MAltR. destruct ds as [|c ds]; [congruence |]. inversion F; subst.
      apply (MCat is_decimal _ _ [46] (c :: ds)); [constructor |].
      apply (MCat is_decimal _ _ [c] ds); [constructor; assumption |].
      apply Matches_Star_Digit. assumption.
Qed.

(** The pattern of [validate_timestamp] denotes the grammar. *)
Lemma timestamp_pattern_grammar ts :
  Matches timestamp_pattern ts <-> TimestampGrammar ts.
Proof.
  unfold timestamp_pattern, TimestampGrammar. split.
  - intros H.
    repeat match goal with
    | H : Re.Matches _ (Cat _ _) _ |- _ =>
      apply Matches_Cat_inv in H;
      let s1 := fresh "s" in let s2 := fresh "t" in
      destruct H as (s1 & s2 & -> & ? & ?)
    | H : Re.Matches _ Eps _ |- _ => apply Matches_Eps_inv in H; subst
    | H : Re.Matches _ (Lit _) _ |- _ => apply Matches_Lit_inv in H; subst
    | H : Re.Matches _ (Rep _ Digit) _ |- _ => apply Matches_Rep_Digit in H
    | H : Re.Matches _ (Opt _) _ |- _ => apply Matches_fraction in H
    end.
    do 7 eexists.
    repeat match goal with |- _ /\ _ => split end.
    8: reflexivity.
    all: assumption.
  - intros (Y & Mo & D & h & m & s & f & HY & HM & HD & Hh & Hm & Hs & Hf & ->).
    apply (MCat is_decimal Eps _ []); [constructor |].
    apply MCat; [apply Matches_Rep_Digit; assumption |].
    apply (MCat is_decimal (Lit 45) _ [45]); [constructor |].
    apply MCat; [apply Matches_Rep_Digit; assumption |].
    apply (MCat is_decimal (Lit 45) _ [45]); [constructor |].
    apply MCat; [apply Matches_Rep_Digit; assumption |].
    apply (MCat is_decimal (Lit 84) _ [84]); [constructor |].
    apply MCat; [apply Matches_Rep_Digit; assumption |].
    apply (MCat is_decimal (Lit 58) _ [58]); [constructor |].
    apply MCat; [apply Matches_Rep_Digit; assumption |].
    apply (MCat is_decimal (Lit 58) _ [58]); [constructor |].
    apply MCat; [apply Matches_Rep_Digit; assumption |].
    apply MCat; [apply Matches_fraction; assumption |].
    apply (MCat is_decimal (Lit 90) Eps [90] []); constructor.
Qed.

(** [re.fullmatch(timestamp_pattern, ts)] succeeds exactly on the grammar. *)
Lemma fullmatch_timestamp_grammar ts :
  Re.fullmatch is_decimal timestamp_pattern ts = true <-> TimestampGrammar ts.
Proof.
  rewrite fullmatch_Matches. apply timestamp_pattern_grammar.
Qed.

End Grammar.
End Timestamp.

(** ** The store and one turn of the loop *)

Lemma store_audio_metadata_cases sid ts fname len w :
  (hd false (faults w) = true /\
   store_audio_metadata sid ts fname len w =
     (mkWorld (audio_metadata w) (sqlite_sequence w) (tl (faults w)),
      Raise (HTTPException 500 "Failed to store audio metadata")))
  \/
  (hd false (faults w) = false /\
   store_audio_metadata sid ts fname len w =
     (mkWorld (audio_metadata w ++ [mkRecord (next_rowid w) sid ts fname len])
        (next_rowid w) (tl (faults w)),
      Ok tt)).
Proof.
  unfold store_audio_metadata, next_rowid.
  destruct (faults w) as [|[|] later]; simpl; auto.
Qed.

Lemma process_file_measure sample_rate payload audio_file w :
  process_file sample_rate payload audio_file w =
  match measure sample_rate audio_file with
  | Raise e => (w, Raise e)
  | Ok len =>
    match store_audio_metadata (session_id payload) (timestamp payload)
            (file_name audio_file) len w with
    | (w', Ok _) => (w', Ok (mkProcessed (file_name audio_file) (round len 2)))
    | (w', Raise e) => (w', Raise e)
    end
  end.
Proof.
  unfold process_file, measure, mbind, lift, ret, bind.
  destruct (Base64.b64decode (encoded_audio audio_file) false) as [decoded|e];
    [| reflexivity].
  destruct (Numpy.frombuffer_int16 decoded) as [arr|e]; [| reflexivity].
  destruct (calculate_audio_length arr sample_rate) as [len|e]; [| reflexivity].
  destruct (store_audio_metadata _ _ _ len w) as [w' [[]|e]]; reflexivity.
Qed.

(** What one turn does to the table: it appends the file's row when the
    turn succeeds and leaves the table alone when it raises. *)
Lemma process_file_table sample_rate payload audio_file w :
  match process_file sample_rate payload audio_file w with
  | (w', Ok entry) =>
    exists len,
      measure sample_rate audio_file = Ok len /\
      hd false (faults w) = false /\
      entry = mkProcessed (file_name audio_file) (round len 2) /\
      w' = mkWorld
             (audio_metadata w ++
                [mkRecord (next_rowid w) (session_id payload) (timestamp payload)
                   (file_name audio_file) len])
             (next_rowid w) (tl (faults w))
  | (w', Raise _) =>
    audio_metadata w' = audio_metadata w /\ sqlite_sequence w' = sqlite_sequence w
  end.
Proof.
  rewrite process_file_measure.
  destruct (measure sample_rate audio_file) as [len|e]; [| auto].
  destruct (store_audio_metadata_cases (session_id payload) (timestamp payload)
              (file_name audio_file) len w) as [[Hf ->] | [Hf ->]].
  - simpl. auto.
  - exists len. auto.
Qed.

Lemma max_rowid_app rows r :
  max_rowid (rows ++ [r]) = Z.max (max_rowid rows) (row_id r).
Proof.
  unfold max_rowid. induction rows as [|x rows IH]; simpl.
  - lia.
  - rewrite IH. lia.
Qed.

Lemma max_rowid_nonneg rows : 0 <= max_rowid rows.
Proof.
  unfold max_rowid. induction rows as [|x rows IH]; simpl; lia.
Qed.

(** ** The loop *)

Lemma process_files_attempts payload files :
  forall acc w,
    process_files 4000 payload files acc w =
    (world_after payload files w, acc ++ successes (attempts payload files w)).
Proof.
  induction files as [|f rest IH]; intros acc w; simpl.
  - rewrite app_nil_r. reflexivity.
  - destruct (process_file 4000 payload f w) as [w' [entry|e]] eqn:E; simpl.
    + rewrite IH. unfold successes. simpl. rewrite <- app_assoc. reflexivity.
    + rewrite IH. reflexivity.
Qed.

Lemma attempts_files payload files :
  forall w, map fst (attempts payload files w) = files.
Proof.
  induction files as [|f rest IH]; intros w; simpl; [reflexivity |].
  destruct (process_file 4000 payload f w) as [w' r]. simpl. f_equal. apply IH.
Qed.

Lemma attempts_sound payload files :
  forall w, Forall turn_sound (attempts payload files w).
Proof.
  induction files as [|f rest IH]; intros w; simpl; [constructor |].
  destruct (process_file 4000 payload f w) as [w' r] eqn:E.
  constructor; [| apply IH].
  unfold turn_sound. simpl.
  rewrite process_file_measure in E.
  destruct (measure 4000 f) as [len|e].
  - destruct (store_audio_metadata_cases (session_id payload) (timestamp payload)
                (file_name f) len w) as [[_ Hs] | [_ Hs]];
      rewrite Hs in E; injection E as _ <-; reflexivity.
  - injection E as _ <-. exact I.
Qed.

(** The loop of [process_audio] does what [LoopOutcome] says. *)
Lemma process_files_outcome payload files :
  forall acc w, exists w' entries,
    process_files 4000 payload files acc w = (w', acc ++ entries) /\
    LoopOutcome payload w files w' entries.
Proof.
  induction files as [|f rest IH]; intros acc w.
  - exists w, []. simpl. rewrite app_nil_r. split; constructor.
  - cbn [process_files]. rewrite process_file_measure.
    destruct (measure 4000 f) as [len|e] eqn:Em.
    + destruct (store_audio_metadata (session_id payload) (timestamp payload)
                  (file_name f) len w) as [w1 [[]|e]] eqn:Es.
      * destruct (IH (acc ++ [mkProcessed (file_name f) (round len 2)]) w1)
          as (w' & entries & E & S).
        exists w', (mkProcessed (file_name f) (round len 2) :: entries).
        split.
        -- rewrite E, <- app_assoc. reflexivity.
        -- eapply Loop_stored; eassumption.
      * destruct (IH acc w1) as (w' & entries & E & S).
        exists w', entries. split; [exact E |].
        eapply Loop_store_failed; eassumption.
    + destruct (IH acc w) as (w' & entries & E & S).
      exists w', entries. split; [exact E |].
      eapply Loop_decode_failed; eassumption.
Qed.

(** [LoopOutcome] leaves no choice: the files and the database they start
    from fix the database they leave and the entries. *)
Lemma LoopOutcome_functional payload w files w1 entries1 :
  LoopOutcome payload w files w1 entries1 ->
  forall w2 entries2,
    LoopOutcome payload w files w2 entries2 -> w1 = w2 /\ entries1 = entries2.
Proof.
  induction 1 as [w | w f rest e w1 entries1 Hm _ IH
                  | w f rest len wa e w1 entries1 Hm Hs _ IH
                  | w f rest len wa w1 entries1 Hm Hs _ IH];
    intros w2 entries2 H2; inversion H2; subst;
    try congruence.
  - auto.
  - apply IH. assumption.
  - apply IH.
    match goal with
    | Hs' : store_audio_metadata _ _ _ ?l w = (?wb, Raise _) |- _ =>
      assert (len = l) by congruence; subst l;
      assert (wa = wb) by congruence; subst wb
    end. assumption.
  - match goal with
    | Hs' : store_audio_metadata _ _ _ ?l w = (?wb, Ok tt) |- _ =>
      assert (len = l) by congruence; subst l;
      assert (wa = wb) by congruence; subst wb
    end.
    match goal with
    | H : LoopOutcome payload wa rest _ _ |- _ =>
      destruct (IH _ _ H) as [-> ->]
    end. auto.
Qed.

Lemma successes_all_raised turns :
  Forall (fun turn => raised (snd turn) = true) turns -> successes turns = [].
Proof.
  induction 1 as [|[f r] turns Hr _ IH]; [reflexivity |].
  unfold successes in *. simpl in *. destruct r; [discriminate | exact IH].
Qed.

Lemma successes_length turns :
  List.length (successes turns) = List.length (succeeded turns).
Proof.
  induction turns as [|[f r] turns IH]; [reflexivity |].
  unfold successes, succeeded in *. simpl. destruct r; simpl; congruence.
Qed.

(** ** Validation *)

Lemma validate_audio_file_cases files :
  validate_audio_file files = Ok (PyBool true) \/
  validate_audio_file files = Ok PyNone \/
  validate_audio_file files =
    Raise (ExceptionCustom 400 "Invalid base64 encoding file!").
Proof.
  induction files as [|f rest IH]; simpl; [auto |].
  destruct (reencodes_to_itself (encoded_audio f)) as [[|]|e]; auto.
Qed.

(** The scan stops at the first file that re-encodes to itself. *)
Lemma validate_audio_file_first_success f rest :
  reencodes_to_itself (encoded_audio f) = Ok true ->
  validate_audio_file (f :: rest) = Ok (PyBool true).
Proof. intros H. simpl. rewrite H. reflexivity. Qed.

(** Which batches the scan accepts: those with a file that re-encodes to
    itself before which every file decodes strictly without re-encoding to
    itself. *)
Lemma validate_audio_file_True_iff files :
  validate_audio_file files = Ok (PyBool true) <->
  exists before f after,
    files = before ++ f :: after /\
    Forall (fun g => reencodes_to_itself (encoded_audio g) = Ok false) before /\
    reencodes_to_itself (encoded_audio f) = Ok true.
Proof.
  induction files as [|g rest IH]; simpl.
  - split; [discriminate |].
    intros (before & f & after & E & _). destruct before; discriminate.
  - destruct (reencodes_to_itself (encoded_audio g)) as [[|]|e] eqn:Eg.
    + split; [| reflexivity]. intros _. exists [], g, rest. auto.
    + rewrite IH. split.
      * intros (before & f & after & -> & Hb & Hf).
        exists (g :: before), f, after. auto.
      * intros (before & f & after & E & Hb & Hf).
        destruct before as [|b before]; simpl in E; injection E as <- ->.
        -- congruence.
        -- inversion Hb; subst. exists before, f, after. auto.
    + split; [discriminate |].
      intros (before & f & after & E & Hb & Hf).
      destruct before as [|b before]; simpl in E; injection E as <- ->.
      * congruence.
      * inversion Hb; subst. congruence.
Qed.

Section Validation.

Variable is_decimal : Z -> bool.

Local Abbreviation TimestampGrammar := (TimestampSpec.TimestampGrammar is_decimal).

Lemma validate_timestamp_grammar ts :
  (TimestampGrammar ts /\ validate_timestamp is_decimal ts = Ok (PyBool true)) \/
  (~ TimestampGrammar ts /\
   validate_timestamp is_decimal ts = Raise (ExceptionCustom 400 "Invalid timestamp format!")).
Proof.
  unfold validate_timestamp.
  destruct (Re.fullmatch is_decimal Re.timestamp_pattern ts) eqn:E; simpl.
  - left. split; [| reflexivity]. apply Timestamp.fullmatch_timestamp_grammar, E.
  - right. split; [| reflexivity]. intros G.
    apply Timestamp.fullmatch_timestamp_grammar in G. congruence.
Qed.

(** The three checks in order, each reached only when the ones before it
    passed. *)
Lemma validate_payload_cases payload :
  (audio_files payload = [] /\
   validate_payload is_decimal payload =
     Raise (ExceptionCustom 400 "No audio files provided!"))
  \/
  (audio_files payload <> [] /\ ~ TimestampGrammar (timestamp payload) /\
   validate_payload is_decimal payload =
     Raise (ExceptionCustom 400 "Invalid timestamp format!"))
  \/
  (audio_files payload <> [] /\ TimestampGrammar (timestamp payload) /\
   validate_payload is_decimal payload =
     match validate_audio_file (audio_files payload) with
     | Ok v => Ok (truthy v)
     | Raise e => Raise e
     end).
Proof.
  unfold validate_payload.
  destruct (audio_files payload) as [|f rest] eqn:Ef; simpl.
  - left. auto.
  - right.
    destruct (validate_timestamp_grammar (timestamp payload)) as [[G E] | [G E]];
      rewrite E; simpl.
    + right. repeat split; [discriminate | exact G |].
      destruct (reencodes_to_itself (encoded_audio f)) as [[|]|e]; simpl;
        try reflexivity.
      destruct (validate_audio_file rest) as [[[|]|]|e]; reflexivity.
    + left. repeat split; [discriminate | exact G].
Qed.

(** A failing validation is one of four outcomes. *)
Lemma fails_validation_cases payload :
  fails_validation is_decimal payload ->
  validate_payload is_decimal payload = Ok false \/
  exists reason,
    In reason failure_reasons /\
    validate_payload is_decimal payload = Raise (ExceptionCustom 400 reason).
Proof.
  unfold fails_validation. intros Hf.
  destruct (validate_payload_cases payload) as [[_ E] | [(_ & _ & E) | (_ & _ & E)]].
  - right. eexists. split; [| exact E]. simpl. auto.
  - right. eexists. split; [| exact E]. simpl. auto.
  - destruct (validate_audio_file_cases (audio_files payload)) as [V | [V | V]];
      rewrite V in E; simpl in E.
    + congruence.
    + left. exact E.
    + right. eexists. split; [| exact E]. simpl. auto.
Qed.

(** The handler leaves the loop out when validation fails. *)
Lemma process_audio_rejected payload w :
  fails_validation is_decimal payload ->
  process_audio is_decimal payload w =
  (w, match validate_payload is_decimal payload with
      | Raise e => Raise e
      | Ok _ => Ok (ErrorDict "error" "Invalid audio file metadata or payload.")
      end).
Proof.
  unfold fails_validation, process_audio. intros Hf.
  destruct (validate_payload is_decimal payload) as [[|]|e];
    [congruence | reflexivity | reflexivity].
Qed.

Lemma process_audio_accepted payload w :
  validate_payload is_decimal payload = Ok true ->
  process_audio is_decimal payload w =
  (world_after payload (audio_files payload) w,
   Ok (SuccessDict "success" (successes (attempts payload (audio_files payload) w)))).
Proof.
  unfold process_audio. intros ->.
  rewrite process_files_attempts. reflexivity.
Qed.

(** C7. A batch with an empty [audio_files] list is answered with the
    rejection "No audio files provided!" (status 400), whatever its
    [session_id] and [timestamp] are: the presence check is the first of the
    chain and the timestamp and base64 checks are not reached.  The database
    is left as it was. *)
Theorem empty_batch_rejected (sid ts : pystr) (w : World) :
  validate_payload is_decimal (mkAudioPayload sid ts []) =
    Raise (ExceptionCustom 400 "No audio files provided!") /\
  post_process_audio is_decimal (mkAudioPayload sid ts []) w =
    (w, mkResponse 400 (JsonDetail "No audio files provided!")).
Proof. split; reflexivity. Qed.

(** C6. A batch with a non-empty [audio_files] list whose [timestamp] is not
    in the grammar [YYYY-MM-DDTHH:MM:SS[.fraction]Z] (equivalently, is not
    fully matched by the pattern of [validate_timestamp]) is answered with
    the rejection "Invalid timestamp format!" (status 400), whatever the
    files contain. *)
Theorem bad_timestamp_rejected (payload : AudioPayload) (w : World) :
  audio_files payload <> [] ->
  ~ TimestampGrammar (timestamp payload) ->
  Re.fullmatch is_decimal Re.timestamp_pattern (timestamp payload) = false /\
  post_process_audio is_decimal payload w =
    (w, mkResponse 400 (JsonDetail "Invalid timestamp format!")).
Proof.
  intros Hne Hg. split.
  - destruct (Re.fullmatch is_decimal Re.timestamp_pattern (timestamp payload)) eqn:E;
      [| reflexivity].
    apply Timestamp.fullmatch_timestamp_grammar in E. contradiction.
  - unfold post_process_audio.
    rewrite process_audio_rejected.
    + destruct (validate_payload_cases payload)
        as [[E _] | [(_ & _ & E) | (_ & G & _)]];
        [contradiction | | contradiction].
      rewrite E. reflexivity.
    + unfold fails_validation.
      destruct (validate_payload_cases payload)
        as [[E _] | [(_ & _ & E) | (_ & G & _)]];
        [contradiction | | contradiction].
      rewrite E. discriminate.
Qed.

(** C9. When a batch fails validation, the handler returns before its loop:
    the response is fixed by the validator's outcome alone, it carries no
    [processed_files], and the database (table, id sequence and the engine's
    pending insert outcomes) is exactly what it was, so no insert was
    attempted. *)
Theorem rejected_batch_leaves_store_unchanged (payload : AudioPayload) (w : World) :
  fails_validation is_decimal payload ->
  process_audio is_decimal payload w =
    (w, match validate_payload is_decimal payload with
        | Raise e => Raise e
        | Ok _ => Ok (ErrorDict "error" "Invalid audio file metadata or payload.")
        end) /\
  fst (post_process_audio is_decimal payload w) = w /\
  (forall st entries,
     body (snd (post_process_audio is_decimal payload w)) <> JsonDict (SuccessDict st entries)).
Proof.
  intros Hf. split; [apply process_audio_rejected, Hf |].
  unfold post_process_audio.
  rewrite (process_audio_rejected payload w Hf).
  destruct (fails_validation_cases payload Hf) as [E | (reason & _ & E)];
    rewrite E; simpl;
    split; try reflexivity; intros; discriminate.
Qed.

(** C2, as amended. A batch that fails validation is answered in one of two
    ways and in no other: with status 400 and a [detail] that is one of the
    three failure reasons, when a check raises; or with status 200 and the
    body [{status: "error", message: "Invalid audio file metadata or
    payload."}], when [validate_payload] returns [False] without raising. *)
Theorem validation_failure_response (payload : AudioPayload) (w : World) :
  fails_validation is_decimal payload ->
  (exists reason,
     In reason failure_reasons /\
     validate_payload is_decimal payload = Raise (ExceptionCustom 400 reason) /\
     post_process_audio is_decimal payload w = (w, mkResponse 400 (JsonDetail reason)))
  \/
  (validate_payload is_decimal payload = Ok false /\
   post_process_audio is_decimal payload w =
     (w, mkResponse 200
           (JsonDict (ErrorDict "error" "Invalid audio file metadata or payload.")))).
Proof.
  intros Hf.
  unfold post_process_audio.
  rewrite (process_audio_rejected payload w Hf).
  destruct (fails_validation_cases payload Hf) as [E | (reason & Hin & E)];
    rewrite E.
  - right. auto.
  - left. exists reason. auto.
Qed.

(** C3. When a batch passes validation, the response is status 200 with
    [{status: "success", processed_files: ...}], and the database and
    [processed_files] are what [LoopOutcome] gives for the files in input
    order: a file whose decode step raises is skipped, a file whose
    [store_audio_metadata] raises is skipped, in both cases the loop goes on
    with the next file, and every other file contributes exactly one entry
    (its name and rounded length, nothing about the files that were
    skipped).  Every file gets its turn, whatever happened to the files
    before it; [processed_files] holds, in that order, the entries of the
    turns that did not raise, and it is the empty list, still with status
    200 and "success", when every turn raised. *)
Theorem valid_batch_always_succeeds (payload : AudioPayload) (w : World) :
  validate_payload is_decimal payload = Ok true ->
  let turns := attempts payload (audio_files payload) w in
  (exists w' entries,
     post_process_audio is_decimal payload w =
       (w', mkResponse 200 (JsonDict (SuccessDict "success" entries))) /\
     LoopOutcome payload w (audio_files payload) w' entries) /\
  map fst turns = audio_files payload /\
  post_process_audio is_decimal payload w =
    (world_after payload (audio_files payload) w,
     mkResponse 200 (JsonDict (SuccessDict "success" (successes turns)))) /\
  List.length (successes turns) =
    List.length (succeeded turns) /\
  (Forall (fun turn => raised (snd turn) = true) turns ->
   post_process_audio is_decimal payload w =
     (world_after payload (audio_files payload) w,
      mkResponse 200 (JsonDict (SuccessDict "success" [])))) /\
  Forall turn_sound turns.
Proof.
  intros Hv turns.
  assert (Hpost : post_process_audio is_decimal payload w =
    (world_after payload (audio_files payload) w,
     mkResponse 200 (JsonDict (SuccessDict "success" (successes turns))))).
  { unfold post_process_audio.
    rewrite (process_audio_accepted payload w Hv). reflexivity. }
  split; [| repeat split].
  - destruct (process_files_outcome payload (audio_files payload) [] w)
      as (w' & entries & E & S).
    exists w', entries. split; [| exact S].
    unfold post_process_audio, process_audio. rewrite Hv, E. reflexivity.
  - apply attempts_files.
  - exact Hpost.
  - apply successes_length.
  - intros Hall. rewrite Hpost, (successes_all_raised turns Hall). reflexivity.
  - apply attempts_sound.
Qed.

End Validation.

(** ** The records a batch leaves behind *)

Lemma In_max_rowid rows r : In r rows -> row_id r <= max_rowid rows.
Proof.
  unfold max_rowid. induction rows as [|x rows IH]; simpl; [contradiction |].
  intros [-> | H]; [lia |]. specialize (IH H). lia.
Qed.

Lemma In_next_rowid w r : In r (audio_metadata w) -> row_id r < next_rowid w.
Proof.
  intros H. apply In_max_rowid in H. unfold next_rowid. lia.
Qed.

(** One turn never lowers the next row id, and a successful turn uses it. *)
Lemma process_file_next_rowid sample_rate payload audio_file w :
  match process_file sample_rate payload audio_file w with
  | (w', Ok _) => next_rowid w' = next_rowid w + 1
  | (w', Raise _) => next_rowid w' = next_rowid w
  end.
Proof.
  pose proof (process_file_table sample_rate payload audio_file w) as H.
  destruct (process_file sample_rate payload audio_file w) as [w' [entry|e]].
  - destruct H as (len & _ & _ & _ & ->).
    unfold next_rowid at 1. simpl. rewrite max_rowid_app. simpl.
    unfold next_rowid. lia.
  - destruct H as [Ht Hs]. unfold next_rowid. rewrite Ht, Hs. reflexivity.
Qed.

(** The loop only appends: one row per successful turn, in order, with ids
    from the next row id on. *)
Lemma world_after_appends payload files :
  forall w, exists new,
    audio_metadata (world_after payload files w) = audio_metadata w ++ new /\
    Forall2 (row_of_turn payload) new (succeeded (attempts payload files w)) /\
    Forall (fun row => next_rowid w <= row_id row
                       < next_rowid (world_after payload files w)) new /\
    next_rowid w <= next_rowid (world_after payload files w).
Proof.
  induction files as [|f rest IH]; intros w.
  - exists []. simpl. rewrite app_nil_r. repeat split; try constructor. lia.
  - simpl.
    pose proof (process_file_table 4000 payload f w) as Ht.
    pose proof (process_file_next_rowid 4000 payload f w) as Hn.
    destruct (process_file 4000 payload f w) as [w' [entry|e]]; simpl.
    + destruct Ht as (len & Hm & _ & -> & ->).
      match goal with |- context [world_after payload rest ?x] => set (w1 := x) in * end.
      destruct (IH w1) as (new & Htab & Hrows & Hids & Hle).
      exists (mkRecord (next_rowid w) (session_id payload) (timestamp payload)
                (file_name f) len :: new).
      repeat split.
      * rewrite Htab. unfold w1 at 1. simpl. rewrite <- app_assoc. reflexivity.
      * unfold succeeded. simpl. constructor; [| exact Hrows].
        unfold row_of_turn. simpl. auto.
      * constructor; [simpl; lia |].
        eapply Forall_impl; [| exact Hids]. simpl. intros r Hr. lia.
      * lia.
    + destruct Ht as [Ht Hs].
      destruct (IH w') as (new & Htab & Hrows & Hids & Hle).
      exists new. repeat split.
      * rewrite Htab, Ht. reflexivity.
      * exact Hrows.
      * eapply Forall_impl; [| exact Hids]. simpl. intros r Hr. lia.
      * lia.
Qed.

(** With a store that never fails, the rows a batch adds are fixed by the
    batch alone. *)
Lemma world_after_healthy payload files :
  forall w, faults w = [] ->
    faults (world_after payload files w) = [] /\
    exists new,
      audio_metadata (world_after payload files w) = audio_metadata w ++ new /\
      map row_fields new = expected_rows payload files.
Proof.
  induction files as [|f rest IH]; intros w Hw.
  - split; [exact Hw |]. exists []. simpl. rewrite app_nil_r. auto.
  - simpl. rewrite process_file_measure. unfold expected_rows. simpl.
    destruct (measure 4000 f) as [len|e]; simpl.
    + destruct (store_audio_metadata_cases (session_id payload) (timestamp payload)
                  (file_name f) len w) as [[Hf _] | [_ ->]];
        [rewrite Hw in Hf; discriminate |].
      simpl.
      match goal with |- context [world_after payload rest ?x] => set (w1 := x) in * end.
      destruct (IH w1) as (Hfaults & new & Htab & Hfields).
      { unfold w1. simpl. rewrite Hw. reflexivity. }
      split; [exact Hfaults |].
      exists (mkRecord (next_rowid w) (session_id payload) (timestamp payload)
                (file_name f) len :: new).
      split.
      * rewrite Htab. unfold w1 at 1. simpl. rewrite <- app_assoc. reflexivity.
      * simpl. unfold row_fields at 1. simpl. f_equal. exact Hfields.
    + apply IH. exact Hw.
Qed.

Section Records.

Variable is_decimal : Z -> bool.

Lemma post_process_audio_rejected payload w :
  fails_validation is_decimal payload ->
  fst (post_process_audio is_decimal payload w) = w.
Proof.
  intros Hf. unfold post_process_audio.
  rewrite (process_audio_rejected is_decimal payload w Hf).
  destruct (fails_validation_cases is_decimal payload Hf) as [E | (reason & _ & E)];
    rewrite E; reflexivity.
Qed.

Lemma post_process_audio_world payload w :
  (validate_payload is_decimal payload = Ok true /\
   fst (post_process_audio is_decimal payload w) =
     world_after payload (audio_files payload) w)
  \/
  (fails_validation is_decimal payload /\
   fst (post_process_audio is_decimal payload w) = w).
Proof.
  destruct (validate_payload is_decimal payload) as [[|]|e] eqn:E.
  - left. split; [reflexivity |].
    unfold post_process_audio.
    rewrite (process_audio_accepted is_decimal payload w E). reflexivity.
  - right. assert (Hf : fails_validation is_decimal payload).
    { unfold fails_validation. congruence. }
    split; [exact Hf |].
    apply post_process_audio_rejected, Hf.
  - right. assert (Hf : fails_validation is_decimal payload).
    { unfold fails_validation. congruence. }
    split; [exact Hf |].
    apply post_process_audio_rejected, Hf.
Qed.

End Records.

Section AppendOnly.

Variable is_decimal : Z -> bool.

(** C10. A request only appends to the table: the rows that were there stay
    as they were, in place; each successful turn of the loop adds exactly one
    row, which carries the request's [session_id] and [timestamp] and the
    file's [file_name] unchanged, under an id larger than every id already in
    the table; a rejected request adds nothing.  Nothing is deduplicated:
    with a store that does not fail, submitting an accepted batch a second
    time adds a second set of rows with the same fields as the first and with
    new, larger ids. *)
Theorem records_are_append_only (payload : AudioPayload) (w : World) :
  let w1 := fst (post_process_audio is_decimal payload w) in
  let w2 := fst (post_process_audio is_decimal payload w1) in
  (exists new,
     audio_metadata w1 = audio_metadata w ++ new /\
     (validate_payload is_decimal payload = Ok true ->
      Forall2 (row_of_turn payload) new
        (succeeded (attempts payload (audio_files payload) w))) /\
     (fails_validation is_decimal payload -> new = []) /\
     Forall (fun row => forall old, In old (audio_metadata w) ->
                                    row_id old < row_id row) new)
  /\
  (faults w = [] ->
   validate_payload is_decimal payload = Ok true ->
   exists new1 new2,
     audio_metadata w1 = audio_metadata w ++ new1 /\
     audio_metadata w2 = audio_metadata w ++ new1 ++ new2 /\
     map row_fields new1 = expected_rows payload (audio_files payload) /\
     map row_fields new2 = map row_fields new1 /\
     forall r1 r2, In r1 new1 -> In r2 new2 -> row_id r1 < row_id r2).
Proof.
  intros w1 w2.
  destruct (post_process_audio_world is_decimal payload w) as [[Hv E1] | [Hf E1]];
    fold w1 in E1.
  - (* accepted *)
    destruct (post_process_audio_world is_decimal payload w1) as [[_ E2] | [Hf _]];
      [| congruence].
    fold w2 in E2.
    destruct (world_after_appends payload (audio_files payload) w)
      as (new1 & Ht1 & Hr1 & Hi1 & Hl1).
    rewrite <- E1 in Ht1, Hi1, Hl1.
    split.
    + exists new1. repeat split.
      * exact Ht1.
      * intros _. exact Hr1.
      * intros Hf. congruence.
      * eapply Forall_impl; [| exact Hi1]. simpl. intros row Hrow old Hold.
        apply In_next_rowid in Hold. lia.
    + intros Hw _.
      destruct (world_after_healthy payload (audio_files payload) w Hw)
        as (Hw1 & n1 & Hn1 & Hfields1).
      rewrite <- E1 in Hw1, Hn1.
      rewrite Ht1 in Hn1. apply app_inv_head in Hn1. subst n1.
      destruct (world_after_healthy payload (audio_files payload) w1 Hw1)
        as (_ & new2 & Ht2 & Hfields2).
      rewrite <- E2 in Ht2.
      destruct (world_after_appends payload (audio_files payload) w1)
        as (n2 & Hn2 & _ & Hi2 & _).
      rewrite <- E2 in Hn2, Hi2.
      rewrite Ht2 in Hn2. apply app_inv_head in Hn2. subst n2.
      exists new1, new2. repeat split.
      * exact Ht1.
      * rewrite Ht2, Ht1, <- app_assoc. reflexivity.
      * exact Hfields1.
      * congruence.
      * intros r1 r2 H1 H2.
        rewrite Forall_forall in Hi1, Hi2.
        specialize (Hi1 r1 H1). specialize (Hi2 r2 H2). lia.
  - (* rejected *)
    split.
    + exists []. rewrite E1, app_nil_r. repeat split; auto.
      intros Hv. unfold fails_validation in Hf. contradiction.
    + intros _ Hv. unfold fails_validation in Hf. contradiction.
Qed.

End AppendOnly.

(** ** The decoder *)

Lemma int_truediv_Ok a b q : int_truediv a b = Ok q -> q = nearest_quotient a b.
Proof.
  unfold int_truediv. destruct (b =? 0); [discriminate |].
  destruct (nearest_quotient a b); intros H; inversion H; reflexivity.
Qed.

Lemma int16_items_length n :
  forall buf, List.length buf = (2 * n)%nat ->
              List.length (Numpy.int16_items buf) = n.
Proof.
  induction n as [|n IH]; intros buf H.
  - destruct buf; [reflexivity | discriminate].
  - destruct buf as [|lo [|hi rest]]; simpl in H; try lia.
    simpl. f_equal. apply IH. lia.
Qed.

(** A buffer that [frombuffer] accepts holds two bytes per sample. *)
Lemma frombuffer_int16_length buf samples :
  Numpy.frombuffer_int16 buf = Ok samples ->
  Z.of_nat (List.length buf) = 2 * Z.of_nat (List.length samples).
Proof.
  unfold Numpy.frombuffer_int16.
  destruct (Z.eqb_spec (Z.of_nat (List.length buf) mod 2) 0) as [E | E];
    [| discriminate].
  intros H. injection H as <-.
  pose proof (Z.div_mod (Z.of_nat (List.length buf)) 2 ltac:(lia)) as D.
  rewrite (int16_items_length (Z.to_nat (Z.of_nat (List.length buf) / 2))); lia.
Qed.

(** A buffer of odd length is refused. *)
Lemma frombuffer_int16_odd buf :
  Z.odd (Z.of_nat (List.length buf)) = true ->
  Numpy.frombuffer_int16 buf =
    Raise (ValueError "buffer size must be a multiple of element size").
Proof.
  intros H. unfold Numpy.frombuffer_int16.
  rewrite Zmod_odd, H. reflexivity.
Qed.

(** C5. When a file's turn succeeds and its decoded payload holds exactly
    [N] 16-bit samples (two bytes each), the row appended for it carries
    [length_seconds = N / 4000], the float quotient of the two integers,
    unrounded, and the file's entry in [processed_files] carries that value
    rounded to 2 decimal places. *)
Theorem stored_length_is_samples_over_rate
    (payload : AudioPayload) (audio_file : AudioFile)
    (decoded : pybytes) (samples : list Z) (w w' : World) (entry : ProcessedFile) :
  Base64.b64decode (encoded_audio audio_file) false = Ok decoded ->
  Numpy.frombuffer_int16 decoded = Ok samples ->
  process_file 4000 payload audio_file w = (w', Ok entry) ->
  let N := Z.of_nat (List.length samples) in
  Z.of_nat (List.length decoded) = 2 * N /\
  audio_metadata w' =
    audio_metadata w ++
      [mkRecord (next_rowid w) (session_id payload) (timestamp payload)
         (file_name audio_file) (nearest_quotient N 4000)] /\
  entry = mkProcessed (file_name audio_file) (round (nearest_quotient N 4000) 2).
Proof.
  intros Hdec Hbuf Hturn N.
  pose proof (process_file_table 4000 payload audio_file w) as Ht.
  rewrite Hturn in Ht. destruct Ht as (len & Hm & _ & -> & ->).
  unfold measure in Hm. rewrite Hdec in Hm. simpl in Hm.
  rewrite Hbuf in Hm. simpl in Hm.
  apply int_truediv_Ok in Hm. fold N in Hm. subst len.
  split; [apply frombuffer_int16_length, Hbuf |]. split; reflexivity.
Qed.


(** C4, as amended. A file whose decoded payload has an odd number of bytes
    is not truncated: reinterpreting the bytes as 16-bit samples raises, the
    turn ends without touching the database, and the loop goes on with the
    next file, adding no entry for this one. *)
Theorem odd_payload_is_skipped
    (payload : AudioPayload) (audio_file : AudioFile) (decoded : pybytes)
    (w : World) :
  Base64.b64decode (encoded_audio audio_file) false = Ok decoded ->
  Z.odd (Z.of_nat (List.length decoded)) = true ->
  process_file 4000 payload audio_file w =
    (w, Raise (ValueError "buffer size must be a multiple of element size")) /\
  forall rest processed_files,
    process_files 4000 payload (audio_file :: rest) processed_files w =
    process_files 4000 payload rest processed_files w.
Proof.
  intros Hdec Hodd.
  assert (Hturn : process_file 4000 payload audio_file w =
    (w, Raise (ValueError "buffer size must be a multiple of element size"))).
  { rewrite process_file_measure. unfold measure. rewrite Hdec. simpl.
    rewrite (frombuffer_int16_odd decoded Hodd). reflexivity. }
  split; [exact Hturn |]. intros rest acc. simpl. rewrite Hturn. reflexivity.
Qed.

(** ** The handler on sample requests *)

(** The sample timestamp is accepted under every digit class that contains
    the ASCII digits. *)
Lemma sample_timestamp_accepted (is_decimal : Z -> bool) :
  (forall c, ascii_decimal c = true -> is_decimal c = true) ->
  Re.fullmatch is_decimal Re.timestamp_pattern sample_timestamp = true.
Proof.
  intros Hd. apply Timestamp.fullmatch_timestamp_grammar.
  exists (py "2025"), (py "01"), (py "02"), (py "12"), (py "00"), (py "00"), [].
  unfold TimestampSpec.digits, TimestampSpec.optional_fraction.
  repeat split; auto; repeat constructor; apply Hd; reflexivity.
Qed.

Example b64encode_text :
  Base64.b64encode (py "Hello world!") = py "SGVsbG8gd29ybGQh".
Proof. reflexivity. Qed.

Example b64decode_strict_text :
  Base64.b64decode (py "SGVsbG8gd29ybGQh") true = Ok (py "Hello world!").
Proof. reflexivity. Qed.

(** Lenient decoding drops what is not in the alphabet and stops at a
    complete pad sequence; strict decoding raises on both. *)
Example b64decode_lenient :
  Base64.b64decode (py "Q Q = =") false = Ok [65] /\
  Base64.b64decode (py "QQ==QQ==") false = Ok [65] /\
  raised (Base64.b64decode (py "Q Q = =") true) = true /\
  raised (Base64.b64decode (py "QQ==QQ==") true) = true.
Proof. repeat split; reflexivity. Qed.

(** An incomplete quad raises in both modes. *)
Example b64decode_incomplete :
  Base64.b64decode (py "QQ=") false = Raise (BinasciiError "Incorrect padding") /\
  Base64.b64decode (py "QQ") true = Raise (BinasciiError "Incorrect padding").
Proof. split; reflexivity. Qed.

Example reencodes_noncanonical :
  reencodes_to_itself (encoded_audio noncanonical_file) = Ok false.
Proof. reflexivity. Qed.

Example one_second :
  int_truediv 4000 4000 = Ok (S754_finite false 4503599627370496 (-52)).
Proof. reflexivity. Qed.

Example half_second :
  int_truediv 2000 4000 = Ok (S754_finite false 4503599627370496 (-53)).
Proof. reflexivity. Qed.

(** [round(500 / 4000, 2) = 0.12]: 0.125 is a float and an exact tie, which
    goes to the even hundredth. *)
Example round_exact_tie :
  round (nearest_quotient 500 4000) 2 = nearest_quotient 12 100.
Proof. reflexivity. Qed.

(** [round(20 / 4000, 2) = 0.01]: the float nearest to 0.005 lies above it. *)
Example round_above_tie :
  round (nearest_quotient 20 4000) 2 = nearest_quotient 1 100.
Proof. reflexivity. Qed.

(** [round(60 / 4000, 2) = 0.01]: the float nearest to 0.015 lies below it. *)
Example round_below_tie :
  round (nearest_quotient 60 4000) 2 = nearest_quotient 1 100.
Proof. reflexivity. Qed.

(** C1, on the code. The scan of [validate_audio_file] returns at the first
    file that re-encodes to itself: a batch whose first file is canonical
    base64 and whose second file is not base64 at all passes validation, is
    answered with status 200, and the second file is decoded leniently and
    stored; the same two files in the other order are rejected. *)
Lemma first_valid_file_ends_validation :
  reencodes_to_itself (encoded_audio two_sample_file) = Ok true /\
  reencodes_to_itself (encoded_audio garbage_file) =
    Raise (BinasciiError "Only base64 data is allowed") /\
  validate_payload ascii_decimal (sample_batch [two_sample_file; garbage_file]) =
    Ok true /\
  snd (post_process_audio ascii_decimal
         (sample_batch [two_sample_file; garbage_file]) empty_db) =
    mkResponse 200
      (JsonDict (SuccessDict "success"
         [mkProcessed (py "a.wav") zero; mkProcessed (py "bad.wav") zero])) /\
  post_process_audio ascii_decimal
    (sample_batch [garbage_file; two_sample_file]) empty_db =
    (empty_db, mkResponse 400 (JsonDetail "Invalid base64 encoding file!")).
Proof. repeat split; reflexivity. Qed.

(** C2, counterexample. A batch whose only file decodes strictly but does
    not re-encode to itself fails validation without any check raising: the
    answer has status 200 and the message "Invalid audio file metadata or
    payload.", which is none of the three failure reasons. *)
Lemma unraised_validation_failure :
  fails_validation ascii_decimal (sample_batch [noncanonical_file]) /\
  post_process_audio ascii_decimal (sample_batch [noncanonical_file]) empty_db =
    (empty_db,
     mkResponse 200
       (JsonDict (ErrorDict "error" "Invalid audio file metadata or payload."))) /\
  ~ (exists reason,
       In reason failure_reasons /\
       snd (post_process_audio ascii_decimal
              (sample_batch [noncanonical_file]) empty_db) =
         mkResponse 400 (JsonDetail reason)).
Proof.
  split; [| split].
  - unfold fails_validation. vm_compute. discriminate.
  - reflexivity.
  - intros (reason & _ & H). vm_compute in H. discriminate.
Qed.

(** C4, counterexample. The file [one_byte_file] decodes to one byte, an
    odd length; its turn raises instead of measuring zero samples, and the
    batch that holds only this file is answered with an empty
    [processed_files] and stores nothing. *)
Lemma odd_payload_not_truncated :
  Base64.b64decode (encoded_audio one_byte_file) false = Ok [65] /\
  process_file 4000 (sample_batch [one_byte_file]) one_byte_file empty_db =
    (empty_db, Raise (ValueError "buffer size must be a multiple of element size")) /\
  ~ (exists w' entry,
       process_file 4000 (sample_batch [one_byte_file]) one_byte_file empty_db =
         (w', Ok entry)) /\
  post_process_audio ascii_decimal (sample_batch [one_byte_file]) empty_db =
    (empty_db, mkResponse 200 (JsonDict (SuccessDict "success" []))).
Proof.
  repeat split; try reflexivity.
  intros (w' & entry & H). vm_compute in H. discriminate.
Qed.

(** ** The properties at sample requests *)

(** C6 at a batch whose timestamp lacks the [Z]. *)
Lemma bad_timestamp_rejected_witness :
  audio_files unzoned_batch <> [] /\
  ~ TimestampSpec.TimestampGrammar ascii_decimal (timestamp unzoned_batch) /\
  post_process_audio ascii_decimal unzoned_batch empty_db =
    (empty_db, mkResponse 400 (JsonDetail "Invalid timestamp format!")).
Proof.
  assert (Hne : audio_files unzoned_batch <> []) by discriminate.
  assert (Hg : ~ TimestampSpec.TimestampGrammar ascii_decimal
                   (timestamp unzoned_batch)).
  { intros G. apply Timestamp.fullmatch_timestamp_grammar in G.
    vm_compute in G. discriminate. }
  split; [exact Hne |]. split; [exact Hg |].
  exact (proj2 (bad_timestamp_rejected ascii_decimal unzoned_batch empty_db Hne Hg)).
Defined.

(** C9 at a batch of one file that is not base64, on a database whose next
    insert would fail. *)
Lemma rejected_batch_leaves_store_unchanged_witness :
  fails_validation ascii_decimal garbage_batch /\
  fst (post_process_audio ascii_decimal garbage_batch failing_db) = failing_db.
Proof.
  assert (Hf : fails_validation ascii_decimal garbage_batch).
  { unfold fails_validation. vm_compute. discriminate. }
  split; [exact Hf |].
  exact (proj1 (proj2
    (rejected_batch_leaves_store_unchanged ascii_decimal garbage_batch failing_db Hf))).
Defined.

(** C2, as amended, at a batch of one file that is not base64. *)
Lemma validation_failure_response_witness :
  fails_validation ascii_decimal garbage_batch /\
  ((exists reason,
      In reason failure_reasons /\
      validate_payload ascii_decimal garbage_batch =
        Raise (ExceptionCustom 400 reason) /\
      post_process_audio ascii_decimal garbage_batch empty_db =
        (empty_db, mkResponse 400 (JsonDetail reason)))
   \/
   (validate_payload ascii_decimal garbage_batch = Ok false /\
    post_process_audio ascii_decimal garbage_batch empty_db =
      (empty_db,
       mkResponse 200
         (JsonDict (ErrorDict "error" "Invalid audio file metadata or payload."))))).
Proof.
  assert (Hf : fails_validation ascii_decimal garbage_batch).
  { unfold fails_validation. vm_compute. discriminate. }
  split; [exact Hf |].
  exact (validation_failure_response ascii_decimal garbage_batch empty_db Hf).
Defined.

(** C3 at a batch of three files on a database whose first insert fails:
    the first file is skipped at the store, the second at the decode step,
    and the third is stored and listed. *)
Lemma valid_batch_always_succeeds_witness :
  validate_payload ascii_decimal partly_failing_batch = Ok true /\
  post_process_audio ascii_decimal partly_failing_batch failing_db =
    (mkWorld [mkRecord 8 (py "test-session") sample_timestamp (py "b.wav")
                (nearest_quotient 2 4000)] 8 [],
     mkResponse 200
       (JsonDict (SuccessDict "success" [mkProcessed (py "b.wav") zero]))) /\
  LoopOutcome partly_failing_batch failing_db (audio_files partly_failing_batch)
    (mkWorld [mkRecord 8 (py "test-session") sample_timestamp (py "b.wav")
                (nearest_quotient 2 4000)] 8 [])
    [mkProcessed (py "b.wav") zero].
Proof.
  assert (Hv : validate_payload ascii_decimal partly_failing_batch = Ok true)
    by reflexivity.
  assert (Ec : post_process_audio ascii_decimal partly_failing_batch failing_db =
    (mkWorld [mkRecord 8 (py "test-session") sample_timestamp (py "b.wav")
                (nearest_quotient 2 4000)] 8 [],
     mkResponse 200
       (JsonDict (SuccessDict "success" [mkProcessed (py "b.wav") zero]))))
    by reflexivity.
  split; [exact Hv |]. split; [exact Ec |].
  destruct (proj1 (valid_batch_always_succeeds ascii_decimal partly_failing_batch
                     failing_db Hv)) as (w' & entries & E & S).
  rewrite Ec in E. injection E as <- <-. exact S.
Defined.

(** C10 at a batch that holds the same file twice, submitted twice. *)
Lemma records_are_append_only_witness :
  faults empty_db = [] /\
  validate_payload ascii_decimal repeated_batch = Ok true /\
  exists new1 new2,
    audio_metadata (fst (post_process_audio ascii_decimal repeated_batch empty_db)) =
      audio_metadata empty_db ++ new1 /\
    audio_metadata
      (fst (post_process_audio ascii_decimal repeated_batch
              (fst (post_process_audio ascii_decimal repeated_batch empty_db)))) =
      audio_metadata empty_db ++ new1 ++ new2 /\
    map row_fields new1 = expected_rows repeated_batch (audio_files repeated_batch) /\
    map row_fields new2 = map row_fields new1 /\
    forall r1 r2, In r1 new1 -> In r2 new2 -> row_id r1 < row_id r2.
Proof.
  assert (Hw : faults empty_db = []) by reflexivity.
  assert (Hv : validate_payload ascii_decimal repeated_batch = Ok true)
    by reflexivity.
  split; [exact Hw |]. split; [exact Hv |].
  exact (proj2 (records_are_append_only ascii_decimal repeated_batch empty_db) Hw Hv).
Defined.

(** C5 at a file of two samples. *)
Lemma stored_length_is_samples_over_rate_witness :
  Base64.b64decode (encoded_audio two_sample_file) false = Ok [65; 66; 67; 68] /\
  Numpy.frombuffer_int16 [65; 66; 67; 68] = Ok [16961; 17475] /\
  exists w' entry,
    process_file 4000 mixed_batch two_sample_file empty_db = (w', Ok entry) /\
    audio_metadata w' =
      [mkRecord 1 (py "test-session") sample_timestamp (py "a.wav")
         (nearest_quotient 2 4000)] /\
    entry = mkProcessed (py "a.wav") (round (nearest_quotient 2 4000) 2).
Proof.
  assert (Hdec : Base64.b64decode (encoded_audio two_sample_file) false =
                 Ok [65; 66; 67; 68]) by reflexivity.
  assert (Hbuf : Numpy.frombuffer_int16 [65; 66; 67; 68] = Ok [16961; 17475])
    by reflexivity.
  split; [exact Hdec |]. split; [exact Hbuf |].
  eexists. eexists. split; [reflexivity |].
  exact (proj2 (stored_length_is_samples_over_rate mixed_batch two_sample_file
                  [65; 66; 67; 68] [16961; 17475] empty_db _ _
                  Hdec Hbuf eq_refl)).
Defined.


(** C4, as amended, at a one-byte file. *)
Lemma odd_payload_is_skipped_witness :
  Base64.b64decode (encoded_audio one_byte_file) false = Ok [65] /\
  Z.odd (Z.of_nat (List.length [65])) = true /\
  process_file 4000 mixed_batch one_byte_file empty_db =
    (empty_db, Raise (ValueError "buffer size must be a multiple of element size")).
Proof.
  assert (Hdec : Base64.b64decode (encoded_audio one_byte_file) false = Ok [65])
    by reflexivity.
  assert (Hodd : Z.odd (Z.of_nat (List.length [65])) = true) by reflexivity.
  split; [exact Hdec |]. split; [exact Hodd |].
  exact (proj1 (odd_payload_is_skipped mixed_batch one_byte_file [65] empty_db
                  Hdec Hodd)).
Defined.

(** * Further properties *)

(** ** Base64: the encoder by groups, and decoding what it produces *)

Module Base64Facts.
Import Base64 Base64Spec.

Lemma lor_shiftl_small L k b :
  0 <= k -> 0 <= b < 2 ^ k -> Z.lor (Z.shiftl L k) b = L * 2 ^ k + b.
Proof.
  intros Hk Hb.
  assert (Hl : Z.land (Z.shiftl L k) b = 0).
  { apply Z.bits_inj'. intros n Hn. rewrite Z.land_spec, Z.bits_0.
    destruct (Z.ltb_spec n k) as [Hlt | Hge].
    - rewrite Z.shiftl_spec_low by assumption. reflexivity.
    - destruct (Z.eq_dec b 0) as [-> | Hnz].
      + rewrite Z.bits_0. apply andb_false_r.
      + rewrite (Z.bits_above_log2 b n); [apply andb_false_r | lia |].
        assert (Z.log2 b < k) by (apply Z.log2_lt_pow2; lia). lia. }
  rewrite <- Z.lxor_lor by exact Hl.
  rewrite <- Z.add_nocarry_lxor by exact Hl.
  rewrite Z.shiftl_mul_pow2 by exact Hk. reflexivity.
Qed.

Lemma uint32_mod v : uint32 v = v mod 2 ^ 32.
Proof.
  unfold uint32. change 4294967295 with (Z.ones 32).
  apply Z.land_ones. lia.
Qed.

Lemma uchar_mod v : uchar v = v mod 2 ^ 8.
Proof.
  unfold uchar. change 255 with (Z.ones 8). apply Z.land_ones. lia.
Qed.

Lemma b2a_emit_div L n :
  6 <= n -> b2a_emit L n = T (L / 2 ^ (n - 6) mod 2 ^ 6).
Proof.
  intros Hn. unfold b2a_emit, T. f_equal.
  change 63 with (Z.ones 6). rewrite Z.land_ones by lia.
  rewrite Z.shiftr_div_pow2 by lia. reflexivity.
Qed.

Lemma b2a_loop_0 b rest L :
  b2a_loop (b :: rest) L 0 =
  b2a_emit (uint32 (Z.lor (Z.shiftl L 8) b)) 8
    :: b2a_loop rest (uint32 (Z.lor (Z.shiftl L 8) b)) 2.
Proof. reflexivity. Qed.

Lemma b2a_loop_2 b rest L :
  b2a_loop (b :: rest) L 2 =
  b2a_emit (uint32 (Z.lor (Z.shiftl L 8) b)) 10
    :: b2a_loop rest (uint32 (Z.lor (Z.shiftl L 8) b)) 4.
Proof. reflexivity. Qed.

Lemma b2a_loop_4 b rest L :
  b2a_loop (b :: rest) L 4 =
  b2a_emit (uint32 (Z.lor (Z.shiftl L 8) b)) 12
    :: b2a_emit (uint32 (Z.lor (Z.shiftl L 8) b)) 6
    :: b2a_loop rest (uint32 (Z.lor (Z.shiftl L 8) b)) 0.
Proof. reflexivity. Qed.

Lemma b2a_loop_nil_2 L :
  b2a_loop [] L 2 = [T (Z.shiftl (Z.land L 3) 4); 61; 61].
Proof. reflexivity. Qed.

Lemma b2a_loop_nil_4 L :
  b2a_loop [] L 4 = [T (Z.shiftl (Z.land L 15) 2); 61].
Proof. reflexivity. Qed.

(** Shifting a byte into the pending bits. *)
Lemma shift_in L b :
  is_byte b ->
  uint32 (Z.lor (Z.shiftl L 8) b) = 256 * (L mod 16777216) + b.
Proof.
  unfold is_byte. intros Hb.
  rewrite uint32_mod, lor_shiftl_small by lia.
  change (2 ^ 8) with 256. change (2 ^ 32) with 4294967296.
  symmetry. apply (Z.mod_unique_pos _ _ (L / 16777216)).
  - pose proof (Z.mod_pos_bound L 16777216). lia.
  - pose proof (Z.div_mod L 16777216). lia.
Qed.

Lemma b2a_emit_8 L b : is_byte b -> b2a_emit (256 * L + b) 8 = T (b / 4).
Proof.
  unfold is_byte. intros Hb. rewrite b2a_emit_div by lia. f_equal.
  change (2 ^ (8 - 6)) with 4. change (2 ^ 6) with 64.
  Z.div_mod_to_equations. lia.
Qed.

Lemma low_bits_2 L b :
  is_byte b -> Z.shiftl (Z.land (256 * L + b) 3) 4 = b mod 4 * 16.
Proof.
  unfold is_byte. intros Hb.
  change 3 with (Z.ones 2). rewrite Z.land_ones, Z.shiftl_mul_pow2 by lia.
  change (2 ^ 2) with 4. change (2 ^ 4) with 16.
  Z.div_mod_to_equations. lia.
Qed.

Lemma low_bits_4 L b :
  is_byte b -> Z.shiftl (Z.land (256 * L + b) 15) 2 = b mod 16 * 4.
Proof.
  unfold is_byte. intros Hb.
  change 15 with (Z.ones 4). rewrite Z.land_ones, Z.shiftl_mul_pow2 by lia.
  change (2 ^ 2) with 4. change (2 ^ 4) with 16.
  Z.div_mod_to_equations. lia.
Qed.

Lemma b2a_emit_10 L b1 b2 :
  is_byte b1 -> is_byte b2 ->
  b2a_emit (256 * ((256 * L + b1) mod 16777216) + b2) 10 =
  T (b1 mod 4 * 16 + b2 / 16).
Proof.
  unfold is_byte. intros H1 H2. rewrite b2a_emit_div by lia. f_equal.
  change (2 ^ (10 - 6)) with 16. change (2 ^ 6) with 64.
  Z.div_mod_to_equations. lia.
Qed.

Lemma b2a_emit_12 L b2 b3 :
  is_byte b2 -> is_byte b3 ->
  b2a_emit (256 * ((256 * L + b2) mod 16777216) + b3) 12 =
  T (b2 mod 16 * 4 + b3 / 64).
Proof.
  unfold is_byte. intros H2 H3. rewrite b2a_emit_div by lia. f_equal.
  change (2 ^ (12 - 6)) with 64. change (2 ^ 6) with 64.
  Z.div_mod_to_equations. lia.
Qed.

Lemma b2a_emit_6 L b : is_byte b -> b2a_emit (256 * L + b) 6 = T (b mod 64).
Proof.
  unfold is_byte. intros Hb. rewrite b2a_emit_div by lia. f_equal.
  change (2 ^ (6 - 6)) with 1. change (2 ^ 6) with 64.
  Z.div_mod_to_equations. lia.
Qed.

(** The streaming encoder produces the groups, whatever the stale high
    bits of [leftchar] are. *)
Lemma b2a_loop_groups n :
  forall bs L, (List.length bs <= n)%nat -> Forall is_byte bs ->
               b2a_loop bs L 0 = b64_groups bs.
Proof.
  induction n as [|n IH]; intros bs L Hn Hb.
  - destruct bs; [reflexivity | simpl in Hn; lia].
  - destruct bs as [|b1 [|b2 [|b3 rest]]].
    + reflexivity.
    + inversion Hb as [|? ? H1 _]; subst.
      rewrite b2a_loop_0, (shift_in L b1 H1), b2a_loop_nil_2.
      rewrite b2a_emit_8, low_bits_2 by assumption. reflexivity.
    + inversion Hb as [|? ? H1 Hb']; subst. inversion Hb' as [|? ? H2 _]; subst.
      rewrite b2a_loop_0, (shift_in L b1 H1).
      rewrite b2a_loop_2, (shift_in _ b2 H2), b2a_loop_nil_4.
      rewrite b2a_emit_8, b2a_emit_10, low_bits_4 by assumption. reflexivity.
    + inversion Hb as [|? ? H1 Hb']; subst. inversion Hb' as [|? ? H2 Hb'']; subst.
      inversion Hb'' as [|? ? H3 Hr]; subst.
      rewrite b2a_loop_0, (shift_in L b1 H1).
      rewrite b2a_loop_2, (shift_in _ b2 H2).
      rewrite b2a_loop_4, (shift_in _ b3 H3).
      rewrite b2a_emit_8, b2a_emit_10, b2a_emit_12, b2a_emit_6 by assumption.
      rewrite IH; [reflexivity | simpl in Hn; lia | assumption].
Qed.

Lemma b64encode_groups bs : Forall is_byte bs -> b64encode bs = b64_groups bs.
Proof.
  intros Hb. unfold b64encode. apply (b2a_loop_groups (List.length bs)); auto.
Qed.

Ltac split_tests :=
  repeat match goal with
  | |- context [Z.ltb ?a ?b] => destruct (Z.ltb_spec a b)
  | |- context [Z.leb ?a ?b] => destruct (Z.leb_spec a b)
  | |- context [Z.eqb ?a ?b] => destruct (Z.eqb_spec a b)
  | _ => progress simpl
  end.

(** The two tables are inverse on the 64 values, and no alphabet character
    is the pad. *)
Lemma table_inverse v :
  0 <= v < 64 ->
  table_a2b_base64 (T v) = v /\ T v <> BASE64_PAD /\ 0 <= T v < 128.
Proof.
  intros Hv. unfold T, table_b2a_base64, table_a2b_base64, BASE64_PAD.
  split_tests; lia.
Qed.

(** A character of the alphabet enters the current quad. *)
Lemma a2b_loop_data strict v rest st :
  0 <= v < 64 -> padding_started st = false ->
  a2b_loop strict (T v :: rest) st = a2b_loop strict rest (a2b_push st v).
Proof.
  intros Hv Hp. destruct (table_inverse v Hv) as (Ht & Hpad & _).
  cbn [a2b_loop]. rewrite Ht, Hp, andb_false_r.
  destruct (Z.eqb_spec (T v) BASE64_PAD); [contradiction |].
  destruct (Z.leb_spec 64 v); [lia | reflexivity].
Qed.

Lemma a2b_push_0 l p ps out v :
  a2b_push (mk_a2b 0 l p ps out) v = mk_a2b 1 v 0 ps out.
Proof. reflexivity. Qed.

Lemma a2b_push_1 l p ps out v :
  0 <= l < 64 -> 0 <= v < 64 ->
  a2b_push (mk_a2b 1 l p ps out) v =
  mk_a2b 2 (v mod 16) 0 ps (out ++ [l * 4 + v / 16]).
Proof.
  intros Hl Hv. unfold a2b_push. cbn [quad_pos leftchar bin_data padding_started].
  change (1 =? 0) with false. change (1 =? 1) with true. cbv iota.
  change 15 with (Z.ones 4). rewrite Z.land_ones by lia.
  rewrite Z.shiftr_div_pow2 by lia.
  rewrite lor_shiftl_small; [| lia | change (2 ^ 4) with 16; change (2 ^ 2) with 4;
                                       Z.div_mod_to_equations; lia].
  rewrite uchar_mod.
  change (2 ^ 4) with 16. change (2 ^ 2) with 4. change (2 ^ 8) with 256.
  rewrite (Z.mod_small (l * 4 + v / 16)) by (Z.div_mod_to_equations; lia).
  reflexivity.
Qed.

Lemma a2b_push_2 l p ps out v :
  0 <= l < 16 -> 0 <= v < 64 ->
  a2b_push (mk_a2b 2 l p ps out) v =
  mk_a2b 3 (v mod 4) 0 ps (out ++ [l * 16 + v / 4]).
Proof.
  intros Hl Hv. unfold a2b_push. cbn [quad_pos leftchar bin_data padding_started].
  change (2 =? 0) with false. change (2 =? 1) with false. change (2 =? 2) with true. cbv iota.
  change 3 with (Z.ones 2). rewrite Z.land_ones by lia.
  rewrite Z.shiftr_div_pow2 by lia.
  rewrite lor_shiftl_small; [| lia | change (2 ^ 4) with 16; change (2 ^ 2) with 4;
                                       Z.div_mod_to_equations; lia].
  rewrite uchar_mod.
  change (2 ^ 4) with 16. change (2 ^ 2) with 4. change (2 ^ 8) with 256.
  rewrite (Z.mod_small (l * 16 + v / 4)) by (Z.div_mod_to_equations; lia).
  reflexivity.
Qed.

Lemma a2b_push_3 l p ps out v :
  0 <= l < 4 -> 0 <= v < 64 ->
  a2b_push (mk_a2b 3 l p ps out) v = mk_a2b 0 0 0 ps (out ++ [l * 64 + v]).
Proof.
  intros Hl Hv. unfold a2b_push. cbn [quad_pos leftchar bin_data padding_started].
  change (3 =? 0) with false. change (3 =? 1) with false. change (3 =? 2) with false. cbv iota.
  rewrite lor_shiftl_small; [| lia | change (2 ^ 6) with 64; lia].
  rewrite uchar_mod.
  change (2 ^ 6) with 64. change (2 ^ 8) with 256.
  rewrite (Z.mod_small (l * 64 + v)) by lia.
  reflexivity.
Qed.

Ltac sextet := unfold is_byte in *; Z.div_mod_to_equations; lia.

(** Four characters of a full group give back its three bytes. *)
Lemma a2b_loop_group strict b1 b2 b3 rest out :
  is_byte b1 -> is_byte b2 -> is_byte b3 ->
  a2b_loop strict
    (T (b1 / 4) :: T (b1 mod 4 * 16 + b2 / 16) ::
     T (b2 mod 16 * 4 + b3 / 64) :: T (b3 mod 64) :: rest)
    (mk_a2b 0 0 0 false out) =
  a2b_loop strict rest (mk_a2b 0 0 0 false (out ++ [b1; b2; b3])).
Proof.
  intros H1 H2 H3.
  rewrite a2b_loop_data, a2b_push_0 by (reflexivity || sextet).
  rewrite a2b_loop_data, a2b_push_1 by (reflexivity || sextet).
  rewrite a2b_loop_data, a2b_push_2 by (reflexivity || sextet).
  rewrite a2b_loop_data, a2b_push_3 by (reflexivity || sextet).
  rewrite <- !app_assoc. simpl.
  repeat f_equal; sextet.
Qed.

Lemma a2b_loop_tail1 strict b1 out :
  is_byte b1 ->
  a2b_loop strict [T (b1 / 4); T (b1 mod 4 * 16); 61; 61] (mk_a2b 0 0 0 false out) =
  Ok (out ++ [b1]).
Proof.
  intros H1.
  rewrite a2b_loop_data, a2b_push_0 by (reflexivity || sextet).
  rewrite a2b_loop_data, a2b_push_1 by (reflexivity || sextet).
  cbn. rewrite andb_false_r. repeat f_equal. sextet.
Qed.

Lemma a2b_loop_tail2 strict b1 b2 out :
  is_byte b1 -> is_byte b2 ->
  a2b_loop strict
    [T (b1 / 4); T (b1 mod 4 * 16 + b2 / 16); T (b2 mod 16 * 4); 61]
    (mk_a2b 0 0 0 false out) =
  Ok (out ++ [b1; b2]).
Proof.
  intros H1 H2.
  rewrite a2b_loop_data, a2b_push_0 by (reflexivity || sextet).
  rewrite a2b_loop_data, a2b_push_1 by (reflexivity || sextet).
  rewrite a2b_loop_data, a2b_push_2 by (reflexivity || sextet).
  cbn. rewrite andb_false_r, <- app_assoc. simpl.
  repeat f_equal; sextet.
Qed.

Lemma a2b_loop_groups strict n :
  forall bs out, (List.length bs <= n)%nat -> Forall is_byte bs ->
    a2b_loop strict (b64_groups bs) (mk_a2b 0 0 0 false out) = Ok (out ++ bs).
Proof.
  induction n as [|n IH]; intros bs out Hn Hb.
  - destruct bs; [| simpl in Hn; lia]. simpl. rewrite app_nil_r. reflexivity.
  - destruct bs as [|b1 [|b2 [|b3 rest]]].
    + simpl. rewrite app_nil_r. reflexivity.
    + inversion Hb; subst. apply a2b_loop_tail1. assumption.
    + inversion Hb as [|? ? H1 Hb']; subst. inversion Hb'; subst.
      apply a2b_loop_tail2; assumption.
    + inversion Hb as [|? ? H1 Hb']; subst. inversion Hb' as [|? ? H2 Hb'']; subst.
      inversion Hb'' as [|? ? H3 Hr]; subst.
      cbn [b64_groups]. rewrite a2b_loop_group by assumption.
      rewrite IH; [| simpl in Hn; lia | assumption].
      rewrite <- app_assoc. reflexivity.
Qed.

Lemma b64_groups_ascii n :
  forall bs, (List.length bs <= n)%nat -> Forall is_byte bs ->
    forallb (fun c => (0 <=? c) && (c <? 128)) (b64_groups bs) = true.
Proof.
  assert (HT : forall v, 0 <= v < 64 -> (0 <=? T v) && (T v <? 128) = true).
  { intros v Hv. destruct (table_inverse v Hv) as (_ & _ & Hr).
    apply andb_true_iff. split; [apply Z.leb_le | apply Z.ltb_lt]; lia. }
  induction n as [|n IH]; intros bs Hn Hb.
  - destruct bs; [reflexivity | simpl in Hn; lia].
  - destruct bs as [|b1 [|b2 [|b3 rest]]].
    + reflexivity.
    + inversion Hb; subst. cbn [b64_groups forallb].
      rewrite !HT by sextet. reflexivity.
    + inversion Hb as [|? ? H1 Hb']; subst. inversion Hb'; subst.
      cbn [b64_groups forallb]. rewrite !HT by sextet. reflexivity.
    + inversion Hb as [|? ? H1 Hb']; subst. inversion Hb' as [|? ? H2 Hb'']; subst.
      inversion Hb'' as [|? ? H3 Hr]; subst.
      cbn [b64_groups forallb]. rewrite !HT by sextet.
      rewrite IH; [reflexivity | simpl in Hn; lia | assumption].
Qed.

(** The first character of an encoding is never the pad. *)
Lemma b64_groups_head bs c rest :
  Forall is_byte bs -> b64_groups bs = c :: rest -> (c =? BASE64_PAD) = false.
Proof.
  intros Hb E.
  assert (Hc : exists v, 0 <= v < 64 /\ c = T v).
  { destruct bs as [|b1 [|b2 [|b3 more]]]; [discriminate | | |];
      inversion Hb; subst; injection E as <- _; exists (b1 / 4); split;
      (reflexivity || sextet). }
  destruct Hc as (v & Hv & ->).
  destruct (table_inverse v Hv) as (_ & Hpad & _).
  apply Z.eqb_neq. exact Hpad.
Qed.

(** Decoding the encoding of a byte string gives the byte string back,
    with or without [validate]. *)
Lemma b64decode_b64encode validate bs :
  Forall is_byte bs -> b64decode (b64encode bs) validate = Ok bs.
Proof.
  intros Hb. rewrite (b64encode_groups bs Hb).
  unfold b64decode, bytes_from_decode_data.
  rewrite (b64_groups_ascii (List.length bs)) by auto. simpl.
  unfold a2b_base64.
  destruct (b64_groups bs) as [|c rest] eqn:E.
  - destruct bs as [|b1 [|b2 [|b3 more]]]; try discriminate. reflexivity.
  - rewrite (b64_groups_head bs c rest Hb E), andb_false_r.
    rewrite <- E. unfold a2b_init.
    apply (a2b_loop_groups validate (List.length bs) bs []); auto.
Qed.

Lemma uchar_is_byte v : is_byte (uchar v).
Proof.
  unfold is_byte. rewrite uchar_mod. apply Z.mod_pos_bound. reflexivity.
Qed.

Lemma a2b_push_bytes st v :
  Forall is_byte (bin_data st) -> Forall is_byte (bin_data (a2b_push st v)).
Proof.
  intros H. unfold a2b_push.
  destruct (quad_pos st =? 0); [exact H |].
  destruct (quad_pos st =? 1); [| destruct (quad_pos st =? 2)];
    cbn [bin_data]; apply Forall_app; split; auto;
    constructor; auto using uchar_is_byte.
Qed.

Lemma a2b_push_padding st v :
  padding_started (a2b_push st v) = padding_started st.
Proof.
  unfold a2b_push.
  destruct (quad_pos st =? 0); [reflexivity |].
  destruct (quad_pos st =? 1); [| destruct (quad_pos st =? 2)]; reflexivity.
Qed.

(** Whatever the decoder returns is a sequence of bytes. *)
Lemma a2b_loop_bytes strict data :
  forall st out, Forall is_byte (bin_data st) ->
    a2b_loop strict data st = Ok out -> Forall is_byte out.
Proof.
  induction data as [|c rest IH]; intros st out Hst.
  - cbn [a2b_loop]. unfold a2b_finish.
    destruct (quad_pos st =? 0); [| destruct (quad_pos st =? 1); discriminate].
    intros H. injection H as <-. exact Hst.
  - cbn [a2b_loop].
    destruct (c =? BASE64_PAD).
    + destruct (2 <=? quad_pos st).
      * destruct (4 <=? quad_pos st + (pads st + 1)).
        -- destruct (strict && negb (Nat.eqb (List.length rest) 0)); [discriminate |].
           intros H. injection H as <-. exact Hst.
        -- apply IH. exact Hst.
      * apply IH. exact Hst.
    + cbv zeta. destruct (64 <=? table_a2b_base64 c).
      * destruct strict; [discriminate | apply IH; exact Hst].
      * destruct (strict && padding_started st); [discriminate |].
        apply IH. apply a2b_push_bytes. exact Hst.
Qed.

Lemma b64decode_bytes validate s out :
  b64decode s validate = Ok out -> Forall is_byte out.
Proof.
  unfold b64decode, bytes_from_decode_data.
  destruct (forallb _ s); [| discriminate]. simpl. unfold a2b_base64.
  assert (H0 : Forall is_byte (bin_data a2b_init)) by constructor.
  destruct s as [|c rest].
  - apply a2b_loop_bytes. exact H0.
  - destruct (validate && (c =? BASE64_PAD)); [discriminate |].
    apply a2b_loop_bytes. exact H0.
Qed.

(** What strict decoding accepts, lenient decoding reads the same way. *)
Lemma a2b_loop_strict_lenient data :
  forall st out, a2b_loop true data st = Ok out -> a2b_loop false data st = Ok out.
Proof.
  induction data as [|c rest IH]; intros st out.
  - cbn [a2b_loop]. auto.
  - cbn [a2b_loop].
    destruct (c =? BASE64_PAD).
    + destruct (2 <=? quad_pos st).
      * destruct (4 <=? quad_pos st + (pads st + 1)).
        -- cbn [andb]. destruct (negb (Nat.eqb (List.length rest) 0));
             [discriminate | auto].
        -- apply IH.
      * apply IH.
    + cbv zeta. destruct (64 <=? table_a2b_base64 c); [discriminate |].
      cbn [andb]. destruct (padding_started st); [discriminate | apply IH].
Qed.

Lemma b64decode_strict_lenient s out :
  b64decode s true = Ok out -> b64decode s false = Ok out.
Proof.
  unfold b64decode, bytes_from_decode_data.
  destruct (forallb _ s); [| discriminate]. simpl. unfold a2b_base64.
  destruct s as [|c rest].
  - apply a2b_loop_strict_lenient.
  - cbn [andb]. destruct (c =? BASE64_PAD); [discriminate |].
    apply a2b_loop_strict_lenient.
Qed.

(** Strict decoding raises on any text that holds a character which is
    neither in the alphabet nor the pad. *)
Lemma a2b_loop_foreign c data :
  c <> BASE64_PAD -> 64 <= table_a2b_base64 c -> In c data ->
  forall st, raised (a2b_loop true data st) = true.
Proof.
  intros Hpad Hc. induction data as [|d rest IH]; intros Hin st; [contradiction |].
  cbn [a2b_loop].
  destruct (Z.eqb_spec d BASE64_PAD) as [Ed | Ed].
  - assert (Hrest : In c rest) by (destruct Hin; [congruence | assumption]).
    destruct (2 <=? quad_pos st); [| apply IH; exact Hrest].
    destruct (4 <=? quad_pos st + (pads st + 1)); [| apply IH; exact Hrest].
    destruct rest; [contradiction | reflexivity].
  - cbv zeta. destruct (Z.leb_spec 64 (table_a2b_base64 d)) as [Hd | Hd];
      [reflexivity |].
    assert (Hrest : In c rest) by (destruct Hin; [subst; lia | assumption]).
    cbn [andb]. destruct (padding_started st); [reflexivity |].
    apply IH. exact Hrest.
Qed.

Lemma b64decode_foreign c s :
  c <> BASE64_PAD -> 64 <= table_a2b_base64 c -> In c s ->
  raised (b64decode s true) = true.
Proof.
  intros Hpad Hc Hin. unfold b64decode, bytes_from_decode_data.
  destruct (forallb _ s); [| reflexivity]. simpl. unfold a2b_base64.
  destruct s as [|d rest]; [contradiction |].
  cbn [andb]. destruct (d =? BASE64_PAD); [reflexivity |].
  apply a2b_loop_foreign with c; assumption.
Qed.

End Base64Facts.

(** ** Floats: the duration division does not overflow *)

Module FloatFacts.

Lemma digits2_pos_le p : forall D, Z.pos p < 2 ^ D -> 0 <= D -> Z.pos (digits2_pos p) <= D.
Proof.
  induction p as [p IH | p IH |]; intros D Hp HD; simpl.
  - assert (D <> 0) by (intros ->; simpl in Hp; lia).
    replace D with (Z.succ (D - 1)) in Hp by lia.
    rewrite Z.pow_succ_r in Hp by lia.
    specialize (IH (D - 1)). lia.
  - assert (D <> 0) by (intros ->; simpl in Hp; lia).
    replace D with (Z.succ (D - 1)) in Hp by lia.
    rewrite Z.pow_succ_r in Hp by lia.
    specialize (IH (D - 1)). lia.
  - assert (D <> 0) by (intros ->; simpl in Hp; lia). lia.
Qed.

Lemma Zdigits2_bounds m D : 0 <= D -> 0 <= m < 2 ^ D -> 0 <= Zdigits2 m <= D.
Proof.
  intros HD Hm. destruct m as [|p|p]; simpl; [lia | | lia].
  split; [lia |]. apply digits2_pos_le; lia.
Qed.

Lemma iter_pos_invariant {A} (f : A -> A) (P : A -> Prop) :
  (forall x, P x -> P (f x)) -> forall n x, P x -> P (iter_pos f n x).
Proof.
  intros Hf. induction n as [n IH | n IH |]; intros x Hx; simpl; auto.
Qed.

Lemma shr_1_bounds M mrs : 0 <= shr_m mrs <= M -> 0 <= shr_m (shr_1 mrs) <= M.
Proof.
  destruct mrs as [m r s]. destruct m as [|[p|p|]|[p|p|]]; simpl; lia.
Qed.

(** Shifting to the target exponent does not enlarge the mantissa, and
    the exponent it reaches is the old one or the target. *)
Lemma shr_fexp_bounds m e l :
  0 <= m ->
  0 <= shr_m (fst (shr_fexp prec emax m e l)) <= m /\
  (snd (shr_fexp prec emax m e l) = e \/
   snd (shr_fexp prec emax m e l) = fexp prec emax (Zdigits2 m + e)).
Proof.
  intros Hm. unfold shr_fexp, shr.
  assert (H0 : shr_m (shr_record_of_loc m l) = m).
  { destruct l as [|[| |]]; reflexivity. }
  destruct (fexp prec emax (Zdigits2 m + e) - e) as [|p|p] eqn:En; simpl.
  - rewrite H0. split; [lia | auto].
  - split.
    + apply (iter_pos_invariant shr_1 (fun x => 0 <= shr_m x <= m)).
      * intros x. apply shr_1_bounds.
      * rewrite H0. lia.
    + right. lia.
  - rewrite H0. split; [lia | auto].
Qed.

Lemma round_nearest_even_bounds m l :
  0 <= m -> 0 <= round_nearest_even m l <= m + 1.
Proof.
  intros Hm. destruct l as [|[| |]]; simpl; try lia.
  destruct (Z.even m); lia.
Qed.

(** Rounding a mantissa of at most [D] bits at an exponent at most [0]
    does not overflow. *)
Lemma binary_round_aux_no_overflow D s m e l s' :
  0 <= D <= 400 -> 0 <= m < 2 ^ D -> e <= 0 ->
  binary_round_aux prec emax s m e l <> S754_infinity s'.
Proof.
  intros HD Hm He. unfold binary_round_aux.
  pose proof (shr_fexp_bounds m e l ltac:(lia)) as [Hm1 He1].
  destruct (shr_fexp prec emax m e l) as [mrs1 e1]. simpl in Hm1, He1.
  pose proof (round_nearest_even_bounds (shr_m mrs1) (loc_of_shr_record mrs1)
                ltac:(lia)) as Hr.
  set (m2 := round_nearest_even (shr_m mrs1) (loc_of_shr_record mrs1)) in *.
  pose proof (shr_fexp_bounds m2 e1 loc_Exact ltac:(lia)) as [Hm3 He3].
  destruct (shr_fexp prec emax m2 e1 loc_Exact) as [mrs3 e3]. simpl in Hm3, He3.
  pose proof (Zdigits2_bounds m D ltac:(lia) Hm) as Hd.
  assert (Hm2 : 0 <= m2 < 2 ^ (D + 1)).
  { replace (D + 1) with (Z.succ D) by lia. rewrite Z.pow_succ_r by lia. lia. }
  pose proof (Zdigits2_bounds m2 (D + 1) ltac:(lia) Hm2) as Hd2.
  assert (He3' : e3 <= emax - prec).
  { unfold fexp, emin, prec, emax in *. lia. }
  destruct (shr_m mrs3) as [|p|p]; try discriminate.
  apply Z.leb_le in He3'. rewrite He3'. discriminate.
Qed.

(** The duration of fewer than 2^63 samples at 4000 Hz is a float. *)
Lemma int_truediv_4000 N :
  0 <= N < 2 ^ 63 -> int_truediv N 4000 = Ok (nearest_quotient N 4000).
Proof.
  intros HN. unfold int_truediv. simpl (4000 =? 0).
  assert (Hfin : forall s', nearest_quotient N 4000 <> S754_infinity s').
  { intros s'. unfold nearest_quotient.
    destruct (Z.eqb_spec N 0) as [-> | Hnz]; [discriminate |].
    rewrite (Z.abs_eq N) by lia. change (Z.abs 4000) with 4000.
    unfold SFdiv_core_binary.
    pose proof (Zdigits2_bounds N 63 ltac:(lia) HN) as Hd.
    change (Zdigits2 4000) with 12.
    set (e := Z.min (fexp prec emax (Zdigits2 N + 0 - (12 + 0))) (0 - 0)).
    assert (He : -65 <= e <= 0).
    { unfold e, fexp, emin, prec, emax. lia. }
    set (m' := match 0 - 0 - e with
               | 0 => N | Z.pos _ => Z.shiftl N (0 - 0 - e) | Z.neg _ => 0 end).
    assert (Hm' : 0 <= m' < 2 ^ 128).
    { unfold m'. destruct (0 - 0 - e) as [|p|p] eqn:Es.
      - split; [lia |]. apply Z.lt_trans with (2 ^ 63); [lia | reflexivity].
      - rewrite Z.shiftl_mul_pow2 by lia. split; [nia |].
        apply Z.lt_le_trans with (2 ^ 63 * 2 ^ Z.pos p).
        + apply Z.mul_lt_mono_pos_r; [apply Z.pow_pos_nonneg; lia | lia].
        + rewrite <- Z.pow_add_r by lia. apply Z.pow_le_mono_r; lia.
      - split; [lia | reflexivity]. }
    pose proof (Z_div_mod m' 4000 ltac:(lia)) as Hq.
    destruct (Z.div_eucl m' 4000) as [q r].
    apply (binary_round_aux_no_overflow 128); [lia | | lia].
    split; [nia | nia]. }
  destruct (nearest_quotient N 4000); try reflexivity.
  exfalso. eapply Hfin. reflexivity.
Qed.

End FloatFacts.

(** ** The validator on base64 text *)

Lemma pystr_eqb_true a b : pystr_eqb a b = true <-> a = b.
Proof.
  unfold pystr_eqb. destruct (list_eq_dec Z.eq_dec a b); split; congruence.
Qed.

Lemma reencodes_canonical s :
  reencodes_to_itself s = Ok true <->
  exists raw, Forall Base64Spec.is_byte raw /\ s = Base64.b64encode raw.
Proof.
  unfold reencodes_to_itself. split.
  - destruct (Base64.b64decode s true) as [decoded|e] eqn:E; [| discriminate].
    simpl. intros H. injection H as H. apply pystr_eqb_true in H.
    exists decoded. split; [| congruence].
    apply (Base64Facts.b64decode_bytes true s decoded E).
  - intros (raw & Hb & ->).
    rewrite (Base64Facts.b64decode_b64encode true raw Hb). simpl.
    f_equal. apply pystr_eqb_true. reflexivity.
Qed.

(** X1. The scan of [validate_audio_file] accepts a batch of one file
    exactly when the file's text is the base64 encoding of some byte string
    (the text [base64.b64encode] gives for it, padding included). *)
Theorem single_file_accepted_iff_canonical (audio_file : AudioFile) :
  validate_audio_file [audio_file] = Ok (PyBool true) <->
  exists raw,
    Forall Base64Spec.is_byte raw /\ encoded_audio audio_file = Base64.b64encode raw.
Proof.
  rewrite <- reencodes_canonical. simpl.
  destruct (reencodes_to_itself (encoded_audio audio_file)) as [[|]|e];
    split; congruence.
Qed.

(** X2. The two decodes of a file agree: when the strict decode of
    [validate_audio_file] returns bytes for a file's text, the lenient decode
    of [process_audio] returns the same bytes for it. *)
Theorem checked_text_decodes_alike (audio_file : AudioFile) (decoded : pybytes) :
  Base64.b64decode (encoded_audio audio_file) true = Ok decoded ->
  Base64.b64decode (encoded_audio audio_file) false = Ok decoded /\
  Forall Base64Spec.is_byte decoded.
Proof.
  intros H. split.
  - apply Base64Facts.b64decode_strict_lenient. exact H.
  - apply (Base64Facts.b64decode_bytes true _ _ H).
Qed.

Lemma in_alphabet_table c :
  Base64Spec.in_alphabet c = false -> c <> Base64.BASE64_PAD ->
  64 <= Base64.table_a2b_base64 c.
Proof.
  unfold Base64Spec.in_alphabet, Base64.table_a2b_base64, Base64.BASE64_PAD.
  intros H Hp.
  repeat (apply orb_false_iff in H; destruct H as [H ?]).
  repeat match goal with
  | H : _ = false |- context [if ?b then _ else _] =>
    match type of H with b = false => rewrite H end
  end.
  destruct (Z.eqb_spec c 61); [contradiction | lia].
Qed.

Section TextChecks.

Variable is_decimal : Z -> bool.

Lemma post_process_audio_raised payload w code detail :
  validate_payload is_decimal payload = Raise (ExceptionCustom code detail) ->
  post_process_audio is_decimal payload w = (w, mkResponse code (JsonDetail detail)).
Proof.
  intros E. unfold post_process_audio, process_audio. rewrite E. reflexivity.
Qed.

(** X3. A batch with a well-formed timestamp whose first file holds a
    character that is neither in the base64 alphabet nor the pad [=] is
    answered with status 400 and "Invalid base64 encoding file!", and the
    database is left as it was. *)
Theorem foreign_character_rejected
    (payload : AudioPayload) (audio_file : AudioFile) (rest : list AudioFile)
    (c : Z) (w : World) :
  audio_files payload = audio_file :: rest ->
  TimestampSpec.TimestampGrammar is_decimal (timestamp payload) ->
  In c (encoded_audio audio_file) ->
  Base64Spec.in_alphabet c = false -> c <> Base64.BASE64_PAD ->
  post_process_audio is_decimal payload w =
    (w, mkResponse 400 (JsonDetail "Invalid base64 encoding file!")).
Proof.
  intros Ef Hg Hin Ha Hp.
  apply post_process_audio_raised.
  destruct (validate_payload_cases is_decimal payload)
    as [[E _] | [(_ & G & _) | (_ & _ & E)]]; [congruence | contradiction |].
  rewrite E, Ef. simpl.
  pose proof (Base64Facts.b64decode_foreign c (encoded_audio audio_file) Hp
                (in_alphabet_table c Ha Hp) Hin) as Hr.
  unfold reencodes_to_itself.
  destruct (Base64.b64decode (encoded_audio audio_file) true); [discriminate |].
  reflexivity.
Qed.

Lemma validate_audio_file_texts files :
  forall files', map encoded_audio files = map encoded_audio files' ->
                 validate_audio_file files = validate_audio_file files'.
Proof.
  induction files as [|f rest IH]; intros [|f' rest'] E; try discriminate;
    [reflexivity |].
  simpl in E. injection E as Ef Er. simpl. rewrite Ef, (IH rest' Er). reflexivity.
Qed.

(** X6. [validate_payload] returns [True] exactly for the batches that
    have a file, a timestamp in the grammar, and a file whose text re-encodes
    to itself before which every file decodes strictly without re-encoding
    to itself. *)
Theorem validate_payload_accepts_iff (payload : AudioPayload) :
  validate_payload is_decimal payload = Ok true <->
  audio_files payload <> [] /\
  TimestampSpec.TimestampGrammar is_decimal (timestamp payload) /\
  exists before audio_file after,
    audio_files payload = before ++ audio_file :: after /\
    Forall (fun g => reencodes_to_itself (encoded_audio g) = Ok false) before /\
    reencodes_to_itself (encoded_audio audio_file) = Ok true.
Proof.
  rewrite <- validate_audio_file_True_iff.
  destruct (validate_payload_cases is_decimal payload)
    as [[E V] | [(Hne & G & V) | (Hne & G & V)]]; rewrite V.
  - split; [discriminate | intros (Hne & _); contradiction].
  - split; [discriminate | intros (_ & G' & _); contradiction].
  - destruct (validate_audio_file_cases (audio_files payload)) as [F | [F | F]];
      rewrite F; simpl; split; try discriminate; auto;
      intros (_ & _ & H); discriminate.
Qed.

(** X7. Validation reads only the timestamp and the files' texts: two
    batches that agree on those get the same outcome, whatever their
    session ids and file names are. *)
Theorem validation_reads_texts_only (p q : AudioPayload) :
  timestamp p = timestamp q ->
  map encoded_audio (audio_files p) = map encoded_audio (audio_files q) ->
  validate_payload is_decimal p = validate_payload is_decimal q.
Proof.
  intros Et Ef. unfold validate_payload.
  rewrite Et, (validate_audio_file_texts _ _ Ef).
  destruct (audio_files p), (audio_files q); try discriminate; reflexivity.
Qed.

(** X8. [validate_timestamp] returns [True] exactly on the strings of the
    grammar [YYYY-MM-DDTHH:MM:SS[.fraction]Z], with any digits in every
    field, and raises the 400 "Invalid timestamp format!" on every other
    string; it never returns a falsy value. *)
Theorem validate_timestamp_accepts_iff_grammar (ts : pystr) :
  (validate_timestamp is_decimal ts = Ok (PyBool true) <->
   TimestampSpec.TimestampGrammar is_decimal ts) /\
  (validate_timestamp is_decimal ts = Ok (PyBool true) \/
   validate_timestamp is_decimal ts =
     Raise (ExceptionCustom 400 "Invalid timestamp format!")).
Proof.
  destruct (validate_timestamp_grammar is_decimal ts) as [[G E] | [G E]];
    rewrite E; split; auto; split; auto; try discriminate; contradiction.
Qed.

(** X11. The route answers every batch with status 200 or 400: the
    [HTTPException(500)] that [store_audio_metadata] raises is caught in the
    loop and never reaches the client. *)
Theorem never_answers_500 (payload : AudioPayload) (w : World) :
  status_code (snd (post_process_audio is_decimal payload w)) = 200 \/
  status_code (snd (post_process_audio is_decimal payload w)) = 400.
Proof.
  destruct (validate_payload is_decimal payload) as [[|]|e] eqn:E.
  - left. unfold post_process_audio.
    rewrite (process_audio_accepted is_decimal payload w E). reflexivity.
  - left. unfold post_process_audio, process_audio. rewrite E. reflexivity.
  - assert (Hf : fails_validation is_decimal payload).
    { unfold fails_validation. congruence. }
    destruct (fails_validation_cases is_decimal payload Hf) as [E' | (r & _ & E')];
      [congruence |].
    right. rewrite (post_process_audio_raised payload w 400 r E'). reflexivity.
Qed.

End TextChecks.

(** ** The table and the response *)

Lemma NoDup_snoc {A} (l : list A) (x : A) :
  NoDup l -> ~ In x l -> NoDup (l ++ [x]).
Proof.
  induction 1 as [|y l Hy Hl IH]; intros Hx; simpl.
  - constructor; [intros [] | constructor].
  - constructor.
    + rewrite in_app_iff. simpl. intros [H | [H | []]]; [contradiction |].
      subst. apply Hx. left. reflexivity.
    + apply IH. intros H. apply Hx. right. exact H.
Qed.

(** One turn keeps the row ids distinct, never lowers the id sequence, and
    gives a new row an id above the sequence. *)
Lemma process_file_ids sample_rate payload audio_file w :
  NoDup (map row_id (audio_metadata w)) ->
  let w' := fst (process_file sample_rate payload audio_file w) in
  NoDup (map row_id (audio_metadata w')) /\
  sqlite_sequence w <= sqlite_sequence w' /\
  forall row, In row (audio_metadata w') ->
              In row (audio_metadata w) \/ sqlite_sequence w < row_id row.
Proof.
  intros Hnd.
  pose proof (process_file_table sample_rate payload audio_file w) as Ht.
  destruct (process_file sample_rate payload audio_file w) as [w' [entry|e]]; simpl.
  - destruct Ht as (len & _ & _ & _ & ->). simpl.
    assert (Hseq : sqlite_sequence w < next_rowid w) by (unfold next_rowid; lia).
    repeat split.
    + rewrite map_app. simpl. apply NoDup_snoc; [exact Hnd |].
      rewrite in_map_iff. intros (r & Er & Hr).
      apply In_next_rowid in Hr. lia.
    + lia.
    + intros row Hin. apply in_app_iff in Hin.
      destruct Hin as [Hin | [<- | []]]; [left; exact Hin | right; exact Hseq].
  - destruct Ht as [Ht Hs]. rewrite Ht, Hs. repeat split; auto. lia.
Qed.

Lemma world_after_ids payload files :
  forall w, NoDup (map row_id (audio_metadata w)) ->
    NoDup (map row_id (audio_metadata (world_after payload files w))) /\
    sqlite_sequence w <= sqlite_sequence (world_after payload files w) /\
    forall row, In row (audio_metadata (world_after payload files w)) ->
                In row (audio_metadata w) \/ sqlite_sequence w < row_id row.
Proof.
  induction files as [|f rest IH]; intros w Hnd; simpl.
  - repeat split; auto. lia.
  - destruct (process_file_ids 4000 payload f w Hnd) as (Hnd1 & Hs1 & Hr1).
    destruct (IH _ Hnd1) as (Hnd2 & Hs2 & Hr2).
    repeat split; [exact Hnd2 | lia |].
    intros row Hin. destruct (Hr2 row Hin) as [H | H]; [| right; lia].
    destruct (Hr1 row H) as [H' | H']; [left; exact H' | right; lia].
Qed.

(** The entries of a response against the rows its request added. *)
Lemma rows_of_turns payload turns :
  forall new, Forall2 (row_of_turn payload) new (succeeded turns) ->
              Forall2 (stored_as payload) new (successes turns).
Proof.
  induction turns as [|[f r] turns IH]; intros new H.
  - inversion H; subst. constructor.
  - unfold succeeded, successes in *. simpl in *.
    destruct r as [entry|e]; simpl in *.
    + inversion H as [|row turn new' ts Hrow Hrest]; subst.
      constructor; [| apply IH; exact Hrest].
      destruct Hrow as (Hs & Ht & Hn & _ & He). simpl in *.
      injection He as ->. unfold stored_as. simpl. auto.
    + apply IH. exact H.
Qed.

(** With a store that does not fail, the entries are fixed by the batch. *)
Lemma attempts_healthy payload files :
  forall w, faults w = [] ->
    successes (attempts payload files w) = expected_entries files.
Proof.
  induction files as [|f rest IH]; intros w Hw; [reflexivity |].
  simpl. rewrite process_file_measure. unfold expected_entries. simpl.
  destruct (measure 4000 f) as [len|e].
  - destruct (store_audio_metadata_cases (session_id payload) (timestamp payload)
                (file_name f) len w) as [[Hf _] | [_ ->]];
      [rewrite Hw in Hf; discriminate |].
    unfold successes. simpl. f_equal. apply IH. simpl. rewrite Hw. reflexivity.
  - unfold successes. simpl. apply IH. exact Hw.
Qed.

Section TableFacts.

Variable is_decimal : Z -> bool.

(** X9. A request keeps the row ids of the table distinct, never lowers
    the id sequence, and gives every row it adds an id above the sequence
    it found, so an id is not used again after its row is deleted. *)
Theorem row_ids_stay_distinct (payload : AudioPayload) (w : World) :
  NoDup (map row_id (audio_metadata w)) ->
  let w' := fst (post_process_audio is_decimal payload w) in
  NoDup (map row_id (audio_metadata w')) /\
  sqlite_sequence w <= sqlite_sequence w' /\
  forall row, In row (audio_metadata w') ->
              In row (audio_metadata w) \/ sqlite_sequence w < row_id row.
Proof.
  intros Hnd w'.
  destruct (post_process_audio_world is_decimal payload w) as [[_ E] | [_ E]];
    fold w' in E; rewrite E.
  - apply world_after_ids. exact Hnd.
  - repeat split; auto. lia.
Qed.

(** X10. The response lists what the request stored: the rows added to
    the table correspond one to one, in order, to the entries of
    [processed_files], each row with the request's session id and timestamp,
    the entry's file name and the length of which the entry shows the
    rounding; a response that is not a success comes with no new row. *)
Theorem response_lists_the_new_rows (payload : AudioPayload) (w : World) :
  exists new,
    audio_metadata (fst (post_process_audio is_decimal payload w)) =
      audio_metadata w ++ new /\
    match body (snd (post_process_audio is_decimal payload w)) with
    | JsonDict (SuccessDict _ entries) => Forall2 (stored_as payload) new entries
    | _ => new = []
    end.
Proof.
  destruct (validate_payload is_decimal payload) as [[|]|e] eqn:E.
  - unfold post_process_audio.
    rewrite (process_audio_accepted is_decimal payload w E). simpl.
    destruct (world_after_appends payload (audio_files payload) w)
      as (new & Ht & Hr & _).
    exists new. split; [exact Ht |]. apply rows_of_turns. exact Hr.
  - exists []. unfold post_process_audio, process_audio. rewrite E. simpl.
    rewrite app_nil_r. auto.
  - exists []. unfold post_process_audio, process_audio. rewrite E.
    destruct e; simpl; rewrite app_nil_r; auto.
Qed.

End TableFacts.

(** ** The decode step, and the batches the tests submit *)

Lemma frombuffer_int16_even buf :
  Z.even (Z.of_nat (List.length buf)) = true ->
  Numpy.frombuffer_int16 buf = Ok (Numpy.int16_items buf) /\
  Z.of_nat (List.length (Numpy.int16_items buf)) = Z.of_nat (List.length buf) / 2.
Proof.
  intros He.
  assert (E : Numpy.frombuffer_int16 buf = Ok (Numpy.int16_items buf)).
  { unfold Numpy.frombuffer_int16. rewrite Zmod_even, He. reflexivity. }
  split; [exact E |].
  pose proof (frombuffer_int16_length buf _ E) as L. rewrite L.
  rewrite Z.mul_comm, Z.div_mul by lia. reflexivity.
Qed.

(** An even number of bytes, fewer than 2^64, is always measured. *)
Lemma measure_even_bytes (decoded : pybytes) :
  Z.even (Z.of_nat (List.length decoded)) = true ->
  Z.of_nat (List.length decoded) < 2 ^ 64 ->
  (audio_array <- Numpy.frombuffer_int16 decoded ;;
   calculate_audio_length audio_array 4000) = Ok (duration decoded).
Proof.
  intros He Hlen.
  destruct (frombuffer_int16_even decoded He) as [-> L]. simpl.
  unfold calculate_audio_length, duration. rewrite L.
  apply FloatFacts.int_truediv_4000.
  change (2 ^ 64) with (2 * 2 ^ 63) in Hlen.
  split; [apply Z.div_pos; lia | apply Z.div_lt_upper_bound; lia].
Qed.

(** X5. Once a file's text decodes (to fewer than 2^64 bytes), the decode
    step is settled by the byte count alone: an even count gives the length
    count / 2 / 4000 and never raises, an odd count raises [ValueError]. *)
Theorem measure_by_byte_count (audio_file : AudioFile) (decoded : pybytes) :
  Base64.b64decode (encoded_audio audio_file) false = Ok decoded ->
  Z.of_nat (List.length decoded) < 2 ^ 64 ->
  measure 4000 audio_file =
    if Z.even (Z.of_nat (List.length decoded))
    then Ok (duration decoded)
    else Raise (ValueError "buffer size must be a multiple of element size").
Proof.
  intros Hdec Hlen. unfold measure. rewrite Hdec.
  destruct (Z.even (Z.of_nat (List.length decoded))) eqn:He.
  - apply measure_even_bytes; assumption.
  - simpl. rewrite frombuffer_int16_odd; [reflexivity |].
    rewrite <- Z.negb_even, He. reflexivity.
Qed.

(** X12. The length of a file does not depend on its samples: two files
    whose texts decode to the same number of bytes are measured alike, at
    any sample rate. *)
Theorem duration_depends_on_byte_count_only
    (sample_rate : Z) (f g : AudioFile) (bf bg : pybytes) :
  Base64.b64decode (encoded_audio f) false = Ok bf ->
  Base64.b64decode (encoded_audio g) false = Ok bg ->
  List.length bf = List.length bg ->
  measure sample_rate f = measure sample_rate g.
Proof.
  intros Hf Hg Hl. unfold measure. rewrite Hf, Hg. simpl.
  destruct (Numpy.frombuffer_int16 bf) as [sf|e] eqn:Ef;
    destruct (Numpy.frombuffer_int16 bg) as [sg|e'] eqn:Eg; simpl.
  - unfold calculate_audio_length.
    apply frombuffer_int16_length in Ef. apply frombuffer_int16_length in Eg.
    replace (Z.of_nat (List.length sf)) with (Z.of_nat (List.length sg)) by lia.
    reflexivity.
  - unfold Numpy.frombuffer_int16 in *. rewrite Hl in Ef.
    destruct (Z.of_nat (List.length bg) mod 2 =? 0); discriminate.
  - unfold Numpy.frombuffer_int16 in *. rewrite Hl in Ef.
    destruct (Z.of_nat (List.length bg) mod 2 =? 0); discriminate.
  - unfold Numpy.frombuffer_int16 in *. rewrite Hl in Ef.
    destruct (Z.of_nat (List.length bg) mod 2 =? 0); congruence.
Qed.

Lemma measure_upload item :
  pcm (snd item) -> measure 4000 (upload item) = Ok (duration (snd item)).
Proof.
  intros (Hb & He & Hl). unfold measure, upload. simpl.
  rewrite (Base64Facts.b64decode_b64encode false (snd item) Hb).
  apply measure_even_bytes; assumption.
Qed.

Lemma expected_entries_uploads items :
  Forall (fun item => pcm (snd item)) items ->
  expected_entries (map upload items) = map entry_of items.
Proof.
  induction 1 as [|item items Hi _ IH]; [reflexivity |].
  unfold expected_entries in *. simpl. rewrite (measure_upload item Hi).
  simpl. f_equal. exact IH.
Qed.

Lemma expected_rows_uploads payload items :
  Forall (fun item => pcm (snd item)) items ->
  expected_rows payload (map upload items) = map (fields_of payload) items.
Proof.
  induction 1 as [|item items Hi _ IH]; [reflexivity |].
  unfold expected_rows in *. simpl. rewrite (measure_upload item Hi).
  simpl. f_equal. exact IH.
Qed.

Section Uploads.

Variable is_decimal : Z -> bool.

(** X4. What the tests submit is processed in full: for a non-empty batch
    of files that are each the base64 encoding of raw PCM (an even number of
    bytes), with a well-formed timestamp and a store that does not fail, the
    response is status 200 with one entry per file, in order, carrying the
    file's name and its length rounded to 2 decimals, and the table gains
    exactly one row per file, in order, with the request's session id and
    timestamp, the file's name and the unrounded length. *)
Theorem uploads_are_all_processed
    (sid ts : pystr) (items : list (pystr * pybytes)) (w : World) :
  items <> [] ->
  Forall (fun item => pcm (snd item)) items ->
  TimestampSpec.TimestampGrammar is_decimal ts ->
  faults w = [] ->
  let payload := mkAudioPayload sid ts (map upload items) in
  snd (post_process_audio is_decimal payload w) =
    mkResponse 200 (JsonDict (SuccessDict "success" (map entry_of items))) /\
  exists new,
    audio_metadata (fst (post_process_audio is_decimal payload w)) =
      audio_metadata w ++ new /\
    map row_fields new = map (fields_of payload) items.
Proof.
  intros Hne Hpcm Hg Hw payload.
  assert (Hv : validate_payload is_decimal payload = Ok true).
  { destruct items as [|item items']; [congruence |].
    destruct (validate_payload_cases is_decimal payload)
      as [[E _] | [(_ & G & _) | (_ & _ & E)]];
      [discriminate | contradiction |].
    rewrite E. unfold payload. simpl audio_files.
    rewrite validate_audio_file_first_success; [reflexivity |].
    apply reencodes_canonical. exists (snd item). split; [| reflexivity].
    inversion Hpcm as [|? ? Hi _]; subst. apply Hi. }
  unfold post_process_audio.
  rewrite (process_audio_accepted is_decimal payload w Hv). simpl.
  split.
  - rewrite (attempts_healthy payload _ w Hw), (expected_entries_uploads items Hpcm).
    reflexivity.
  - destruct (world_after_healthy payload (map upload items) w Hw)
      as (_ & new & Ht & Hf).
    exists new. split; [exact Ht |].
    rewrite Hf. apply expected_rows_uploads. exact Hpcm.
Qed.

End Uploads.

(** ** The further properties at sample requests *)

Lemma sample_timestamp_grammar :
  TimestampSpec.TimestampGrammar ascii_decimal sample_timestamp.
Proof.
  apply Timestamp.fullmatch_timestamp_grammar. reflexivity.
Qed.

Lemma sample_item_pcm : Forall (fun item => pcm (snd item)) [sample_item].
Proof.
  constructor; [| constructor]. unfold pcm. simpl.
  split; [| split; [reflexivity | lia]].
  repeat constructor; unfold Base64Spec.is_byte; lia.
Qed.

(** X2 at a file of two samples. *)
Lemma checked_text_decodes_alike_witness :
  Base64.b64decode (encoded_audio two_sample_file) true = Ok [65; 66; 67; 68] /\
  Base64.b64decode (encoded_audio two_sample_file) false = Ok [65; 66; 67; 68].
Proof.
  assert (H : Base64.b64decode (encoded_audio two_sample_file) true =
              Ok [65; 66; 67; 68]) by reflexivity.
  split; [exact H |].
  exact (proj1 (checked_text_decodes_alike two_sample_file [65; 66; 67; 68] H)).
Defined.

(** X3 at a batch whose only file is ["!!!"]. *)
Lemma foreign_character_rejected_witness :
  audio_files garbage_batch = [garbage_file] /\
  TimestampSpec.TimestampGrammar ascii_decimal (timestamp garbage_batch) /\
  In 33 (encoded_audio garbage_file) /\
  Base64Spec.in_alphabet 33 = false /\
  33 <> Base64.BASE64_PAD /\
  post_process_audio ascii_decimal garbage_batch failing_db =
    (failing_db, mkResponse 400 (JsonDetail "Invalid base64 encoding file!")).
Proof.
  assert (Hf : audio_files garbage_batch = [garbage_file]) by reflexivity.
  assert (Hin : In 33 (encoded_audio garbage_file)) by (left; reflexivity).
  assert (Ha : Base64Spec.in_alphabet 33 = false) by reflexivity.
  assert (Hp : 33 <> Base64.BASE64_PAD) by discriminate.
  split; [exact Hf |]. split; [exact sample_timestamp_grammar |].
  split; [exact Hin |]. split; [exact Ha |]. split; [exact Hp |].
  exact (foreign_character_rejected ascii_decimal garbage_batch garbage_file []
           33 failing_db Hf sample_timestamp_grammar Hin Ha Hp).
Defined.

(** X4 at a batch of one file of two samples. *)
Lemma uploads_are_all_processed_witness :
  [sample_item] <> [] /\
  Forall (fun item => pcm (snd item)) [sample_item] /\
  TimestampSpec.TimestampGrammar ascii_decimal sample_timestamp /\
  faults empty_db = [] /\
  snd (post_process_audio ascii_decimal
         (mkAudioPayload (py "test-session") sample_timestamp
            (map upload [sample_item])) empty_db) =
    mkResponse 200 (JsonDict (SuccessDict "success" (map entry_of [sample_item]))).
Proof.
  assert (Hne : [sample_item] <> []) by discriminate.
  assert (Hw : faults empty_db = []) by reflexivity.
  split; [exact Hne |]. split; [exact sample_item_pcm |].
  split; [exact sample_timestamp_grammar |]. split; [exact Hw |].
  exact (proj1 (uploads_are_all_processed ascii_decimal (py "test-session")
                  sample_timestamp [sample_item] empty_db Hne sample_item_pcm
                  sample_timestamp_grammar Hw)).
Defined.

(** X5 at a file of two samples. *)
Lemma measure_by_byte_count_witness :
  Base64.b64decode (encoded_audio two_sample_file) false = Ok [65; 66; 67; 68] /\
  Z.of_nat (List.length [65; 66; 67; 68]) < 2 ^ 64 /\
  measure 4000 two_sample_file = Ok (duration [65; 66; 67; 68]).
Proof.
  assert (H : Base64.b64decode (encoded_audio two_sample_file) false =
              Ok [65; 66; 67; 68]) by reflexivity.
  assert (Hl : Z.of_nat (List.length [65; 66; 67; 68]) < 2 ^ 64)
    by (simpl; lia).
  split; [exact H |]. split; [exact Hl |].
  exact (measure_by_byte_count two_sample_file [65; 66; 67; 68] H Hl).
Defined.

(** X7 at two batches that differ in session id and file name only. *)
Lemma validation_reads_texts_only_witness :
  timestamp (sample_batch [two_sample_file]) = timestamp renamed_batch /\
  map encoded_audio (audio_files (sample_batch [two_sample_file])) =
    map encoded_audio (audio_files renamed_batch) /\
  validate_payload ascii_decimal (sample_batch [two_sample_file]) =
    validate_payload ascii_decimal renamed_batch.
Proof.
  assert (Et : timestamp (sample_batch [two_sample_file]) = timestamp renamed_batch)
    by reflexivity.
  assert (Ef : map encoded_audio (audio_files (sample_batch [two_sample_file])) =
               map encoded_audio (audio_files renamed_batch)) by reflexivity.
  split; [exact Et |]. split; [exact Ef |].
  exact (validation_reads_texts_only ascii_decimal (sample_batch [two_sample_file])
           renamed_batch Et Ef).
Defined.

(** X9 at a batch that holds the same file twice, on an empty table. *)
Lemma row_ids_stay_distinct_witness :
  NoDup (map row_id (audio_metadata empty_db)) /\
  NoDup (map row_id
           (audio_metadata
              (fst (post_process_audio ascii_decimal repeated_batch empty_db)))).
Proof.
  assert (H : NoDup (map row_id (audio_metadata empty_db))) by constructor.
  split; [exact H |].
  exact (proj1 (row_ids_stay_distinct ascii_decimal repeated_batch empty_db H)).
Defined.

(** X12 at two files of two samples each. *)
Lemma duration_depends_on_byte_count_only_witness :
  Base64.b64decode (encoded_audio two_sample_file) false = Ok [65; 66; 67; 68] /\
  Base64.b64decode (encoded_audio other_file) false = Ok [69; 70; 71; 72] /\
  List.length [65; 66; 67; 68] = List.length [69; 70; 71; 72] /\
  measure 4000 two_sample_file = measure 4000 other_file.
Proof.
  assert (Hf : Base64.b64decode (encoded_audio two_sample_file) false =
               Ok [65; 66; 67; 68]) by reflexivity.
  assert (Hg : Base64.b64decode (encoded_audio other_file) false =
               Ok [69; 70; 71; 72]) by reflexivity.
  assert (Hl : List.length [65; 66; 67; 68] = List.length [69; 70; 71; 72])
    by reflexivity.
  split; [exact Hf |]. split; [exact Hg |]. split; [exact Hl |].
  exact (duration_depends_on_byte_count_only 4000 two_sample_file other_file
           [65; 66; 67; 68] [69; 70; 71; 72] Hf Hg Hl).
Defined.
